(** * Divisor: the commands of [src/cli.py]

    Shallow embedding of the site-generation orchestrator [generate],
    and of the [setup], [themes] and [clean] commands.  Paths are
    lists of path segments (the strings the code joins with ["/"]); the
    destination tree is a finite function from paths to node kinds; the
    source tree below the subpages folder is a directory tree whose
    listings keep the order the operating system returns them in; the
    collaborators that live outside [cli.py] (configuration loader,
    fetcher, Jekyll layout builder, converter, asset handler) are the
    fields of an environment record, each of which may raise. *)

From Stdlib Require Import String Ascii Bool List Arith ZArith Lia DecimalString.
Set Warnings "-register-all".

Import ListNotations.
Open Scope string_scope.
Open Scope list_scope.

(* ------------------------------------------------------------------ *)
(** ** Python string helpers *)

Module PyStr.

(** [s.endswith(suf)] *)
Definition endswith (suf s : string) : bool :=
  let n := String.length s in
  let m := String.length suf in
  Nat.leb m n && String.eqb (String.substring (n - m) m s) suf.

(** index of the last ['.'] of a string ([str.rfind('.')]), scanning
    from position [i] with the last one seen so far in [acc] *)
Fixpoint last_dot (s : string) (i : nat) (acc : option nat) : option nat :=
  match s with
  | EmptyString => acc
  | String c r => last_dot r (S i) (if Ascii.eqb c "." then Some i else acc)
  end.

(** does the string hold a character other than ['.'] *)
Fixpoint has_non_dot (s : string) : bool :=
  match s with
  | EmptyString => false
  | String c r => negb (Ascii.eqb c ".") || has_non_dot r
  end.

(** [os.path.splitext(name)[0]] for a name with no separator
    (CPython's [genericpath._splitext]: the last dot starts the
    extension unless every character before it is a dot). *)
Definition splitext_root (name : string) : string :=
  match last_dot name 0 None with
  | None => name
  | Some i =>
      if has_non_dot (String.substring 0 i name)
      then String.substring 0 i name
      else name
  end.

End PyStr.

(* ------------------------------------------------------------------ *)
(** ** Paths *)

Definition path := list string.

(** [os.path.splitext(relative_path)[0]]: the separator comes before
    the last dot of the extension, so only the last segment changes. *)
Fixpoint splitext_root_path (p : path) : path :=
  match p with
  | [] => []
  | [x] => [PyStr.splitext_root x]
  | x :: r => x :: splitext_root_path r
  end.

(** [dest_dir = os.path.join(subpages_dest_dir, os.path.splitext(relative_path)[0])] *)
Definition subpage_dest_dir (subpages_dest_dir : string) (relative_path : path) : path :=
  subpages_dest_dir :: splitext_root_path relative_path.

(** [dest_path = os.path.join(dest_dir, "index.md")] *)
Definition subpage_dest_path (subpages_dest_dir : string) (relative_path : path) : path :=
  subpage_dest_dir subpages_dest_dir relative_path ++ ["index.md"].

(* ------------------------------------------------------------------ *)
(** ** Source directory trees and [os.walk] *)

(** A directory as [os.walk] splits it: its non-directory entries and
    its subdirectories, each in directory-listing order. *)
Inductive tree : Type :=
| Node (files : list string) (subdirs : list (string * tree)).

(** [os.walk(top)] (top-down): the pair (relative root, files) of the
    directory itself, then the walks of the subdirectories in order. *)
Fixpoint walk (pre : path) (t : tree) : list (path * list string) :=
  match t with
  | Node fs ds =>
      (pre, fs) :: flat_map (fun '(n, t') => walk (pre ++ [n]) t') ds
  end.

(** the (relative directory, file name) pairs in walk order *)
Definition walk_files (t : tree) : list (path * string) :=
  flat_map (fun '(d, fs) => map (fun f => (d, f)) fs) (walk [] t).

(** a file [f] in the directory reached through the segments [d] *)
Inductive in_tree : path -> string -> tree -> Prop :=
| in_here f fs ds : In f fs -> in_tree [] f (Node fs ds)
| in_sub n t d f fs ds : In (n, t) ds -> in_tree d f t -> in_tree (n :: d) f (Node fs ds).

(* ------------------------------------------------------------------ *)
(** ** The destination file system and [os.makedirs] *)

Inductive kind : Type := DirK | FileK.

Fixpoint path_eqb (p q : path) : bool :=
  match p, q with
  | [], [] => true
  | x :: p', y :: q' => String.eqb x y && path_eqb p' q'
  | _, _ => false
  end.

(** the paths (relative to the working directory) that exist, newest
    entry first; the working directory itself, [[]], is a directory *)
Definition fsys := list (path * kind).

Definition lookup (f : fsys) (p : path) : option kind :=
  match find (fun e => path_eqb (fst e) p) f with
  | Some (_, k) => Some k
  | None => None
  end.

Definition fs_set (f : fsys) (p : path) (k : kind) : fsys := (p, k) :: f.

Definition exists_p (f : fsys) (p : path) : bool :=
  match p with [] => true | _ => match lookup f p with Some _ => true | None => false end end.

Definition isdir (f : fsys) (p : path) : bool :=
  match p with [] => true | _ => match lookup f p with Some DirK => true | _ => false end end.

(** every recorded path sits in a directory *)
Definition fs_wf (f : fsys) : bool :=
  forallb (fun e => isdir f (removelast (fst e))) f.

(** [OSError]s of [os.mkdir]: [FileExistsError] and the others *)
Inductive os_error : Type := FileExistsError | OtherOSError.

(** [os.mkdir(name)] on a path given by its segments reversed *)
Definition mkdir_r (rp : list string) (fs : fsys) : fsys + os_error :=
  let p := rev rp in
  if exists_p fs p then inr FileExistsError
  else match rp with
       | [] => inr OtherOSError
       | _ :: rhead => if isdir fs (rev rhead) then inl (fs_set fs p DirK) else inr OtherOSError
       end.

(** [try: mkdir(name) except OSError: if not exist_ok or not path.isdir(name): raise] *)
Definition mkdir_exist_ok (rp : list string) (exist_ok : bool) (fs : fsys) : fsys + os_error :=
  match mkdir_r rp fs with
  | inl fs2 => inl fs2
  | inr e => if exist_ok && isdir fs (rev rp) then inl fs else inr e
  end.

(** [os.makedirs(name, exist_ok)] on the reversed segments of [name]:
    create the missing head first (a [FileExistsError] from it is
    ignored), then [mkdir(name)], whose error is ignored when
    [exist_ok] holds and [name] is a directory. *)
Fixpoint makedirs_r (rp : list string) (exist_ok : bool) (fs : fsys) : fsys + os_error :=
  let after_head :=
    match rp with
    | _ :: (_ :: _) as rhead =>
        if exists_p fs (rev rhead) then inl fs
        else match makedirs_r rhead exist_ok fs with
             | inl fs' => inl fs'
             | inr FileExistsError => inl fs
             | inr e => inr e
             end
    | _ => inl fs
    end in
  match after_head with
  | inr e => inr e
  | inl fs1 => mkdir_exist_ok rp exist_ok fs1
  end.

Definition makedirs (p : path) (exist_ok : bool) (fs : fsys) : fsys + os_error :=
  makedirs_r (rev p) exist_ok fs.

(* ------------------------------------------------------------------ *)
(** ** Configuration *)

Record content_mapping : Type := {
  home_page_source : string;
  subpages_folder : option string;      (** [None]: the key is null *)
  destination_folder : string;
  media_destination_folder : string }.

Record config : Type := {
  source_repository : string;
  cm : content_mapping }.

(* ------------------------------------------------------------------ *)
(** ** Observable events of a run *)

Inductive event : Type :=
| LoadConfig (file : string)
| Fetch (repo : string)
| Print (msg : string)
| CreateStructure (dest : string)
| MakeDirs (p : path)
| Convert (src dst base : path)
| CopyAssets (src dst : path)
| Echo (msg : string).

(* ------------------------------------------------------------------ *)
(** ** A state, trace and exception monad *)

Record state : Type := { fs : fsys; trace : list event }.

(** [None]: an exception escaped, the run stopped in that state *)
Definition M (A : Type) := state -> option A * state.

Definition ret {A} (a : A) : M A := fun st => (Some a, st).

Definition bind {A B} (m : M A) (f : A -> M B) : M B :=
  fun st => match m st with
            | (Some a, st') => f a st'
            | (None, st') => (None, st')
            end.

Notation "x <- m ;; k" := (bind m (fun x => k)) (at level 61, m at next level, right associativity).
Notation "m ;; k" := (bind m (fun _ => k)) (at level 61, right associativity).

Definition emit (e : event) : M unit :=
  fun st => (Some tt, {| fs := fs st; trace := trace st ++ [e] |}).

Definition raise {A} : M A := fun st => (None, st).

Definition set_fs (f : fsys) : M unit :=
  fun st => (Some tt, {| fs := f; trace := trace st |}).

Definition get_fs : M fsys := fun st => (Some (fs st), st).

(* ------------------------------------------------------------------ *)
(** ** Collaborators outside [cli.py] *)

(** what a path under [source_repo] is after the fetch: a regular file
    or a directory tree (as [os.walk] descends it) *)
Inductive src_node : Type := SrcFile | SrcDir (t : tree).

(** Each collaborator either returns (with its effect on the
    destination file system) or raises ([None]). *)
Record env : Type := {
  load_config : string -> option config;                   (** [load_config(config)] *)
  fetch : string -> bool;                                   (** [SourceFetcher(url).fetch()] *)
  source_at : string -> option src_node;                    (** the fetched source tree *)
  create_structure : string -> config -> fsys -> option fsys;  (** [JekyllSite(dest, cfg).create_structure()] *)
  convert_file : path -> path -> path -> fsys -> option fsys;  (** [converter.convert_file(src, dst, base)] *)
  copy_assets : path -> path -> fsys -> option fsys          (** [asset_handler.copy_assets(src, dst)] *)
}.

Section Generate.

Variable E : env.

Definition load_config_m (file : string) : M config :=
  emit (LoadConfig file);;
  match load_config E file with Some c => ret c | None => raise end.

Definition fetch_m (repo : string) : M unit :=
  emit (Fetch repo);;
  if fetch E repo then ret tt else raise.

Definition create_structure_m (dest : string) (c : config) : M unit :=
  emit (CreateStructure dest);;
  f <- get_fs;;
  match create_structure E dest c f with Some f' => set_fs f' | None => raise end.

Definition convert_file_m (src dst base : path) : M unit :=
  emit (Convert src dst base);;
  f <- get_fs;;
  match convert_file E src dst base f with Some f' => set_fs f' | None => raise end.

Definition copy_assets_m (src dst : path) : M unit :=
  emit (CopyAssets src dst);;
  f <- get_fs;;
  match copy_assets E src dst f with Some f' => set_fs f' | None => raise end.

(** [os.makedirs(p, exist_ok=True)]: an [OSError] escapes *)
Definition makedirs_m (p : path) : M unit :=
  emit (MakeDirs p);;
  f <- get_fs;;
  match makedirs p true f with inl f' => set_fs f' | inr _ => raise end.

(** the body of the inner loop, lines 52-57, for [file] in [root];
    [d] are the segments of [root] below [subpages_source_dir] *)
Definition subpage_step (subpages_source_dir : path) (subpages_dest_dir : string)
    (d : path) (file : string) : M unit :=
  let source_path := subpages_source_dir ++ d ++ [file] in
  let relative_path := d ++ [file] in
  let dest_dir := subpage_dest_dir subpages_dest_dir relative_path in
  makedirs_m dest_dir;;
  let dest_path := dest_dir ++ ["index.md"] in
  convert_file_m source_path dest_path ["source_repo"].

(** [for file in files: if file.endswith(".md"): ...] *)
Fixpoint files_loop (sdir : path) (ddir : string) (d : path) (files : list string) : M unit :=
  match files with
  | [] => ret tt
  | file :: rest =>
      (if PyStr.endswith ".md" file then subpage_step sdir ddir d file else ret tt);;
      files_loop sdir ddir d rest
  end.

(** [for root, _, files in os.walk(subpages_source_dir): ...] *)
Fixpoint walk_loop (sdir : path) (ddir : string) (w : list (path * list string)) : M unit :=
  match w with
  | [] => ret tt
  | (d, files) :: rest => files_loop sdir ddir d files;; walk_loop sdir ddir rest
  end.

(** [os.walk] of a path that is not a directory yields nothing *)
Definition walk_node (n : src_node) : list (path * list string) :=
  match n with SrcDir t => walk [] t | SrcFile => [] end.

(** [cfg.content_mapping.subpages_folder and subpages_folder != "<none>"] *)
Definition subpages_enabled (o : option string) : bool :=
  match o with
  | None => false
  | Some s => negb (String.eqb s "") && negb (String.eqb s "<none>")
  end.

(** lines 44-57 *)
Definition convert_subpages (c : config) : M unit :=
  match subpages_folder (cm c) with
  | Some sub =>
      if subpages_enabled (Some sub) then
        let subpages_source_dir := ("source_repo/" ++ sub)%string in
        let subpages_dest_dir := destination_folder (cm c) in
        match source_at E subpages_source_dir with   (* os.path.exists *)
        | Some n => walk_loop ["source_repo"; sub] subpages_dest_dir (walk_node n)
        | None => ret tt
        end
      else ret tt
  | None => ret tt
  end.

Definition home_src (c : config) : path := ["source_repo"; home_page_source (cm c)].
Definition home_dst (c : config) : path := [destination_folder (cm c); "index.md"].
Definition media_dst (c : config) : path :=
  [destination_folder (cm c); media_destination_folder (cm c)].

(** [generate(config)], lines 23-66 *)
Definition generate (config_file : string) : M unit :=
  c <- load_config_m config_file;;
  fetch_m (source_repository c);;
  emit (Print ("Destination folder: " ++ destination_folder (cm c))%string);;
  create_structure_m (destination_folder (cm c)) c;;
  convert_file_m (home_src c) (home_dst c) ["source_repo"];;
  convert_subpages c;;
  copy_assets_m ["source_repo"] (media_dst c);;
  emit (Echo "Website generated successfully!").

End Generate.

(** a run from a destination file system, with an empty trace *)
Definition run (E : env) (config_file : string) (f0 : fsys) : option unit * state :=
  generate E config_file {| fs := f0; trace := [] |}.

Definition run_trace E config_file f0 : list event := trace (snd (run E config_file f0)).

Definition run_ok E config_file f0 : bool :=
  match fst (run E config_file f0) with Some _ => true | None => false end.

(* ------------------------------------------------------------------ *)
(** ** Sample configuration and collaborators *)

Definition sample_config (sub : option string) : config := {|
  source_repository := "https://github.com/fonte-wiki/Backup-fonte-wiki";
  cm := {| home_page_source := "home.md";
           subpages_folder := sub;
           destination_folder := "site";
           media_destination_folder := "assets/media" |} |}.

Definition empty_fs : fsys := [].

(** collaborators that all succeed: the layout builder makes the
    destination folder, the converter writes its destination file; the
    source tree [srcs] maps a path under [source_repo] to its node *)
Definition sample_env (sub : option string) (srcs : string -> option src_node) : env := {|
  load_config := fun _ => Some (sample_config sub);
  fetch := fun _ => true;
  source_at := srcs;
  create_structure := fun d _ f => Some (fs_set f [d] DirK);
  convert_file := fun _ dst _ f => Some (fs_set f dst FileK);
  copy_assets := fun _ _ f => Some f |}.

Definition one_dir (key : string) (t : tree) : string -> option src_node :=
  fun s => if String.eqb s key then Some (SrcDir t) else None.

(* ------------------------------------------------------------------ *)
(** ** The [setup] command, lines 101-154

    [setup] reads its answers from standard input, one line per
    [click.prompt]; an empty line takes the prompt's default, the end
    of the input raises [click.Abort]. *)

Module Setup.

(** [s.split(sep)] *)
Fixpoint py_split (sep : ascii) (s : string) : list string :=
  match s with
  | EmptyString => [""]
  | String a r =>
      let rest := py_split sep r in
      if Ascii.eqb a sep then "" :: rest
      else match rest with
           | h :: t => String a h :: t
           | [] => [String a ""]
           end
  end.

(** [l[-k]] for [k >= 1]; [None] is the [IndexError] *)
Definition index_neg (l : list string) (k : nat) : option string :=
  if Nat.leb k (length l) then nth_error l (length l - k) else None.

(** [l[i]] for a Python int [i]; [None] is the [IndexError] *)
Definition index_z (l : list string) (i : Z) : option string :=
  if Z.leb 0 i then nth_error l (Z.to_nat i)
  else if Z.leb (- Z.of_nat (length l)) i then nth_error l (Z.to_nat (Z.of_nat (length l) + i))
  else None.

(** [s[:-4]] *)
Definition drop_last4 (s : string) : string := String.substring 0 (String.length s - 4) s.

(** [sep.join(l)] *)
Fixpoint join (sep : string) (l : list string) : string :=
  match l with
  | [] => ""
  | [x] => x
  | x :: r => (x ++ sep ++ join sep r)%string
  end.

Definition nl : string := String (ascii_of_nat 10) "".

(** [str(n)] *)
Definition str_of_nat (n : nat) : string := NilZero.string_of_uint (Nat.to_uint n).

Definition available_themes : list string :=
  ["architect"; "cayman"; "dinky"; "hacker"; "leap-day"; "merlot"; "midnight";
   "minima"; "minimal"; "modernist"; "slate"; "tactile"; "time-machine"].

(** [[f"{i+1}. {theme}" for i, theme in enumerate(available_themes)]] *)
Definition theme_menu_lines : list string :=
  map (fun '(i, t) => (str_of_nat (S i) ++ ". " ++ t)%string)
      (combine (seq 0 (length available_themes)) available_themes).

Definition theme_menu : string := join nl theme_menu_lines.

Definition default_repo_url : string := "git@github.com:your-username/your-repo.git".

Definition repo_url_prompt : string :=
  "Enter your GitHub repository URL (e.g., git@github.com:user/repo.git)".

(** lines 130-136; [None] is an [IndexError] escaping from the
    indexing of a split *)
Definition pages_url_default (repo_url : string) : option string :=
  if PyStr.endswith ".git" repo_url then
    match index_neg (py_split "/" repo_url) 1 with
    | None => None
    | Some last_seg =>
        let repo_name := drop_last4 last_seg in
        match index_neg (py_split "/" repo_url) 2 with
        | None => None
        | Some seg =>
            match index_neg (py_split ":" seg) 1 with
            | None => None
            | Some user_name =>
                Some ("https://" ++ user_name ++ ".github.io/" ++ repo_name ++ "/")%string
            end
        end
    end
  else Some "https://your-username.github.io/your-repo/".

(** the dictionary [config_data], its keys in insertion order *)
Record site_metadata : Type := {
  title : string;
  description : string;
  theme : string;
  github_repository_url : string;
  github_pages_url : string;
  custom_domain : string }.

Record content_mapping : Type := {
  home_page_source : string;
  subpages_folder : string;
  destination_folder : string;
  media_destination_folder : string }.

Record config_data : Type := {
  meta : site_metadata;                 (** [config_data['site_metadata']] *)
  source_repository : string;
  mapping : content_mapping }.          (** [config_data['content_mapping']] *)

(** the exceptions [setup] can raise *)
Inductive exn : Type :=
| Abort          (** [click.Abort]: end of input at a prompt *)
| IndexError     (** a list index out of range *)
| OSError        (** [open("config.yml", "w")] failed *)
| DumpError.     (** [import yaml] or [yaml.dump] raised *)

Inductive sevent : Type :=
| SEcho (msg : string)                  (** [click.echo] *)
| SPrompt (text : string)               (** [click.prompt] shows its text *)
| SBadValue (answer : string)           (** click rejects an answer and asks again *)
| SOpen (file : string)                 (** [open(file, "w")] creates or truncates the file *)
| SWrite (file : string) (d : config_data)   (** [yaml.dump(config_data, f)] completed *)
| SRaise (e : exn).                     (** the exception [e] escapes [setup] *)

Record sstate : Type := { input : list string; out : list sevent }.

(** [None]: an exception escaped; the log ends with its [SRaise] *)
Definition SM (A : Type) := sstate -> option A * sstate.

Definition sret {A} (a : A) : SM A := fun st => (Some a, st).

Definition sbind {A B} (m : SM A) (f : A -> SM B) : SM B :=
  fun st => match m st with
            | (Some a, st') => f a st'
            | (None, st') => (None, st')
            end.

Local Set Warnings "-notation-overridden".
Local Notation "x <- m ;; k" := (sbind m (fun x => k)) (at level 61, m at next level, right associativity).
Local Notation "m ;; k" := (sbind m (fun _ => k)) (at level 61, right associativity).

Definition secho (msg : string) : SM unit :=
  fun st => (Some tt, {| input := input st; out := out st ++ [SEcho msg] |}).

Definition sraise {A} (e : exn) : SM A :=
  fun st => (None, {| input := input st; out := out st ++ [SRaise e] |}).

(** a value, or the exception [e] a [None] stands for *)
Definition lift {A} (e : exn) (o : option A) : SM A :=
  match o with Some a => sret a | None => sraise e end.

(** [click.prompt(text, default=dflt)] *)
Definition prompt (text dflt : string) : SM string :=
  fun st =>
    let o := out st ++ [SPrompt text] in
    match input st with
    | [] => (None, {| input := []; out := o ++ [SRaise Abort] |})
    | l :: r => (Some (if String.eqb l "" then dflt else l), {| input := r; out := o |})
    end.

Section Int.

(** click's conversion of an answer with [int()] *)
Variable parse_int : string -> option Z.

(** whether [open(file, "w")] succeeds *)
Variable can_open : string -> bool.

(** whether [import yaml] and [yaml.dump(d, f, ...)] complete for [d] *)
Variable yaml_dump : config_data -> bool.

(** the value click reads from an answer of an integer prompt with default [dflt] *)
Definition int_answer (dflt : Z) (l : string) : option Z :=
  if String.eqb l "" then Some dflt else parse_int l.

Definition in_range (lo hi : Z) (o : option Z) : bool :=
  match o with Some n => Z.leb lo n && Z.leb n hi | None => false end.

(** [click.prompt(text, type=click.IntRange(lo, hi), default=dflt)]:
    an answer that is no integer or out of range is reported and asked
    again *)
Fixpoint prompt_int_loop (text : string) (lo hi dflt : Z) (inp : list string) (o : list sevent)
    : option Z * sstate :=
  let o1 := o ++ [SPrompt text] in
  match inp with
  | [] => (None, {| input := []; out := o1 ++ [SRaise Abort] |})
  | l :: r =>
      match int_answer dflt l with
      | Some n =>
          if Z.leb lo n && Z.leb n hi then (Some n, {| input := r; out := o1 |})
          else prompt_int_loop text lo hi dflt r (o1 ++ [SBadValue l])
      | None => prompt_int_loop text lo hi dflt r (o1 ++ [SBadValue l])
      end
  end.

Definition prompt_int (text : string) (lo hi dflt : Z) : SM Z :=
  fun st => prompt_int_loop text lo hi dflt (input st) (out st).

(** [with open(file, "w") as f: import yaml; yaml.dump(d, f, ...)]: the
    file is created (or truncated) before the dump, which may raise *)
Definition swrite (file : string) (d : config_data) : SM unit :=
  fun st =>
    if can_open file then
      let o := out st ++ [SOpen file] in
      if yaml_dump d then (Some tt, {| input := input st; out := o ++ [SWrite file d] |})
      else (None, {| input := input st; out := o ++ [SRaise DumpError] |})
    else (None, {| input := input st; out := out st ++ [SRaise OSError] |}).

(** [setup()] *)
Definition setup : SM unit :=
  secho "Welcome to the Divisor setup script!";;
  secho "This will guide you through creating your config.yml file.";;
  title <- prompt "Enter your website's title" "My Awesome Website";;
  description <- prompt "Enter your website's description" "Website created with fonte.wiki and Divisor";;
  secho ("Choose a theme" ++ ":" ++ nl ++ theme_menu)%string;;
  idx <- prompt_int "Enter the number of your choice" 1 (Z.of_nat (length available_themes)) 8;;
  theme <- lift IndexError (index_z available_themes (idx - 1));;
  repo_url <- prompt repo_url_prompt default_repo_url;;
  default_pages_url <- lift IndexError (pages_url_default repo_url);;
  pages_url <- prompt "Enter your GitHub Pages URL" default_pages_url;;
  custom_domain <- prompt "Enter your custom domain (or leave as '<none>')" "<none>";;
  source_repository <- prompt "Enter the source repository URL" "https://github.com/fonte-wiki/Backup-fonte-wiki";;
  home <- prompt "Enter the path to your home page file" "home.md";;
  sub <- prompt "Enter the folder for subpages (or '<none>')" "<none>";;
  dest <- prompt "Enter the destination folder for the generated site" "site_contents";;
  media <- prompt "Enter the destination folder for media files" "assets/media";;
  swrite "config.yml"
    {| meta := {| title := title; description := description; theme := theme;
                  github_repository_url := repo_url; github_pages_url := pages_url;
                  custom_domain := custom_domain |};
       source_repository := source_repository;
       mapping := {| home_page_source := home; subpages_folder := sub;
                     destination_folder := dest; media_destination_folder := media |} |};;
  secho (nl ++ "config.yml created successfully!")%string.

Definition run_setup (answers : list string) : option unit * sstate :=
  setup {| input := answers; out := [] |}.

End Int.

(** [themes()], lines 81-99 *)
Definition themes_lines : list string :=
  ["Available themes:"; "- architect"; "- cayman"; "- dinky"; "- hacker"; "- leap-day";
   "- merlot"; "- midnight"; "- minima"; "- minimal"; "- modernist"; "- slate";
   "- tactile"; "- time-machine"].

End Setup.

(* ------------------------------------------------------------------ *)
(** ** The [clean] command, lines 157-168 *)

(** is [p] a prefix of [q] (is [q] the path [p] or below it) *)
Fixpoint path_prefixb (p q : path) : bool :=
  match p, q with
  | [], _ => true
  | x :: p', y :: q' => String.eqb x y && path_prefixb p' q'
  | _ :: _, [] => false
  end.

(** [shutil.rmtree(p)]: removes [p] and everything below it; raises
    when [p] is not a directory *)
Definition rmtree (p : path) (f : fsys) : fsys + os_error :=
  if isdir f p then inl (filter (fun e => negb (path_prefixb p (fst e))) f)
  else inr OtherOSError.

(** [if os.path.exists(p): shutil.rmtree(p); click.echo(msg)] *)
Definition clean_dir (p : path) (msg : string) : M unit :=
  f <- get_fs;;
  if exists_p f p then
    match rmtree p f with
    | inl f' => set_fs f';; emit (Echo msg)
    | inr _ => raise
    end
  else ret tt.

Definition clean : M unit :=
  clean_dir ["source_repo"] "Removed source_repo directory.";;
  clean_dir ["site_contents"] "Removed site_contents directory.".

(* ================================================================== *)
(** * Properties *)

(* ------------------------------------------------------------------ *)
(** ** Names and the flattening rule *)

Lemma last_dot_app (s1 s2 : string) (i : nat) (acc : option nat) :
  PyStr.last_dot (s1 ++ s2) i acc = PyStr.last_dot s2 (i + String.length s1) (PyStr.last_dot s1 i acc).
Proof.
  revert i acc; induction s1 as [|c r IH]; intros i acc; simpl.
  - now rewrite Nat.add_0_r.
  - rewrite IH. now rewrite Nat.add_succ_r.
Qed.

Lemma last_dot_md (j : nat) (acc : option nat) : PyStr.last_dot ".md" j acc = Some j.
Proof. reflexivity. Qed.

Lemma substring_prefix (c d : string) : String.substring 0 (String.length c) (c ++ d) = c.
Proof. induction c as [|a r IH]; simpl; [now destruct d | now rewrite IH]. Qed.

Lemma substring_after (c d : string) (m : nat) :
  String.substring (String.length c) m (c ++ d) = String.substring 0 m d.
Proof. induction c as [|a r IH]; simpl; auto. Qed.

(** the stem of [c ++ ".md"] is [c] unless [c] is only dots *)
Lemma splitext_root_md (c : string) :
  PyStr.splitext_root (c ++ ".md") = if PyStr.has_non_dot c then c else (c ++ ".md")%string.
Proof.
  unfold PyStr.splitext_root. rewrite last_dot_app, last_dot_md, Nat.add_0_l, substring_prefix.
  reflexivity.
Qed.

Lemma string_length_app (s1 s2 : string) :
  String.length (s1 ++ s2) = String.length s1 + String.length s2.
Proof. induction s1; simpl; auto. Qed.

Lemma endswith_md (c : string) : PyStr.endswith ".md" (c ++ ".md") = true.
Proof.
  unfold PyStr.endswith. rewrite string_length_app.
  change (String.length ".md") with 3. rewrite Nat.add_sub, substring_after.
  apply andb_true_intro; split; [apply Nat.leb_le; lia | reflexivity].
Qed.

Lemma splitext_root_path_snoc (d : path) (x : string) :
  splitext_root_path (d ++ [x]) = d ++ [PyStr.splitext_root x].
Proof.
  induction d as [|y r IH]; [reflexivity|].
  simpl. rewrite IH. destruct r; reflexivity.
Qed.

Lemma subpage_dest_path_md (dest : string) (d : path) (c : string) :
  PyStr.has_non_dot c = true ->
  subpage_dest_path dest (d ++ [(c ++ ".md")%string]) = dest :: d ++ [c; "index.md"].
Proof.
  intros H. unfold subpage_dest_path, subpage_dest_dir.
  rewrite splitext_root_path_snoc, splitext_root_md, H. simpl.
  now rewrite <- app_assoc.
Qed.

(** A source list in which two markdown files differ only by a
    leading-dot name: [.md] has no extension for [os.path.splitext]. *)
Definition dotfile_tree : tree := Node [".md"; ".md.md"] [].

Definition dotfile_env : env := sample_env (Some "docs") (one_dir "source_repo/docs" dotfile_tree).

Ltac find_in := repeat (first [left; reflexivity | right]).

(** ** C1 *)

(** C1 (as stated, refuted): the file [.md] at the root of the subpages
    folder is a markdown file for the code, yet its destination is
    [<dest>/.md/index.md], not the [<dest>/<c>/index.md] with [c = ""]
    that the rule "strip the extension" gives. *)
Lemma C1_dotfile_counterexample :
  subpage_dest_path "site" [".md"] = ["site"; ".md"; "index.md"] /\
  ~ (forall (d : path) (c : string),
        subpage_dest_path "site" (d ++ [(c ++ ".md")%string]) = "site" :: d ++ [c; "index.md"]).
Proof.
  split; [reflexivity|].
  intros H. specialize (H [] ""). vm_compute in H. discriminate H.
Qed.

(** C1 (amended): a subpage whose relative path is [d ++ [c ++ ".md"]],
    where the stem [c] holds a character other than a dot, goes to
    [<dest>/d/c/index.md]. *)
Theorem C1_flattening (dest : string) (d : path) (c : string) :
  PyStr.has_non_dot c = true ->
  subpage_dest_path dest (d ++ [(c ++ ".md")%string]) = dest :: d ++ [c; "index.md"].
Proof. apply subpage_dest_path_md. Qed.

Lemma C1_flattening_witness :
  PyStr.has_non_dot "c" = true /\
  subpage_dest_path "site" ["a"; "b"; "c.md"] = ["site"; "a"; "b"; "c"; "index.md"].
Proof.
  split; [reflexivity|].
  exact (C1_flattening "site" ["a"; "b"] "c" eq_refl).
Defined.

(** ** C2 *)

(** C2 (as stated, refuted): in a run over the subpages folder [docs]
    holding [.md] and [.md.md], both are converted to
    [site/.md/index.md]. *)
Lemma C2_collision_counterexample :
  let tr := run_trace dotfile_env "config.yml" empty_fs in
  In (Convert ["source_repo"; "docs"; ".md"] ["site"; ".md"; "index.md"] ["source_repo"]) tr /\
  In (Convert ["source_repo"; "docs"; ".md.md"] ["site"; ".md"; "index.md"] ["source_repo"]) tr.
Proof. vm_compute. split; find_in. Qed.

(** C2 (amended): distinct markdown paths whose stems hold a character
    other than a dot get distinct destinations, and no subpage
    destination is the home page destination [<dest>/index.md]. *)
Theorem C2_destinations_disjoint (c : config) (d1 d2 : path) (c1 c2 : string) :
  PyStr.has_non_dot c1 = true -> PyStr.has_non_dot c2 = true ->
  d1 ++ [(c1 ++ ".md")%string] <> d2 ++ [(c2 ++ ".md")%string] ->
  subpage_dest_path (destination_folder (cm c)) (d1 ++ [(c1 ++ ".md")%string])
    <> subpage_dest_path (destination_folder (cm c)) (d2 ++ [(c2 ++ ".md")%string]) /\
  (forall (d : path) (f : string),
      subpage_dest_path (destination_folder (cm c)) (d ++ [f]) <> home_dst c).
Proof.
  intros H1 H2 Hne. split.
  - rewrite !subpage_dest_path_md by assumption. intros Heq.
    injection Heq as Heq.
    replace (d1 ++ [c1; "index.md"]) with ((d1 ++ [c1]) ++ ["index.md"]) in Heq
      by (now rewrite <- app_assoc).
    replace (d2 ++ [c2; "index.md"]) with ((d2 ++ [c2]) ++ ["index.md"]) in Heq
      by (now rewrite <- app_assoc).
    apply app_inj_tail in Heq as [Heq _].
    apply app_inj_tail in Heq as [-> ->]. now apply Hne.
  - intros d f Heq. apply (f_equal (@length string)) in Heq.
    unfold subpage_dest_path, subpage_dest_dir, home_dst in Heq.
    rewrite splitext_root_path_snoc in Heq. simpl in Heq.
    rewrite !length_app in Heq. simpl in Heq. lia.
Qed.

Lemma C2_destinations_disjoint_witness :
  PyStr.has_non_dot "a" = true /\ PyStr.has_non_dot "b" = true /\
  ["x"; "a.md"] <> ["b.md"] /\
  subpage_dest_path "site" ["x"; "a.md"] <> subpage_dest_path "site" ["b.md"].
Proof.
  assert (Hne : ["x"; "a.md"] <> ["b.md"]) by discriminate.
  split; [reflexivity|]. split; [reflexivity|]. split; [exact Hne|].
  exact (proj1 (C2_destinations_disjoint (sample_config None) ["x"] [] "a" "b" eq_refl eq_refl Hne)).
Defined.

(* ------------------------------------------------------------------ *)
(** ** What a computation appends to the trace *)

Definition emits_only (P : event -> Prop) {A} (m : M A) : Prop :=
  forall st, exists ext, trace (snd (m st)) = trace st ++ ext /\ Forall P ext.

Lemma emits_ret P {A} (a : A) : emits_only P (ret a).
Proof. intros st. exists []. split; [now rewrite app_nil_r | constructor]. Qed.

Lemma emits_raise P {A} : emits_only P (@raise A).
Proof. intros st. exists []. split; [now rewrite app_nil_r | constructor]. Qed.

Lemma emits_emit (P : event -> Prop) e : P e -> emits_only P (emit e).
Proof. intros He st. exists [e]. split; [reflexivity | now constructor]. Qed.

Lemma emits_get_fs P : emits_only P get_fs.
Proof. intros st. exists []. split; [now rewrite app_nil_r | constructor]. Qed.

Lemma emits_set_fs P f : emits_only P (set_fs f).
Proof. intros st. exists []. split; [simpl; now rewrite app_nil_r | constructor]. Qed.

Lemma emits_bind P {A B} (m : M A) (k : A -> M B) :
  emits_only P m -> (forall a, emits_only P (k a)) -> emits_only P (bind m k).
Proof.
  intros Hm Hk st. unfold bind. destruct (Hm st) as [e1 [H1 F1]].
  destruct (m st) as [[a|] st'] eqn:E; simpl in *.
  - destruct (Hk a st') as [e2 [H2 F2]]. exists (e1 ++ e2).
    split; [rewrite H2, H1; symmetry; apply app_assoc | now apply Forall_app].
  - now exists e1.
Qed.

Create HintDb emits.
#[local] Hint Resolve emits_ret emits_raise emits_emit emits_get_fs emits_set_fs : emits.

Ltac emits_step :=
  repeat first
    [ apply emits_bind; [|intro]
    | match goal with |- emits_only _ (match ?x with _ => _ end) => destruct x end
    | eauto with emits ].

(** the events of the subpage loop *)
Definition subpage_event (e : event) : Prop :=
  match e with MakeDirs _ | Convert _ _ _ => True | _ => False end.

Section Loops.

Variable E : env.

Lemma emits_subpage_step sdir ddir d file :
  emits_only subpage_event (subpage_step E sdir ddir d file).
Proof.
  unfold subpage_step, makedirs_m, convert_file_m.
  emits_step; apply emits_emit; exact I.
Qed.

Lemma emits_files_loop sdir ddir d files :
  emits_only subpage_event (files_loop E sdir ddir d files).
Proof.
  induction files as [|x r IH]; simpl; [apply emits_ret|].
  apply emits_bind; [|intros; exact IH].
  destruct (PyStr.endswith ".md" x); [apply emits_subpage_step | apply emits_ret].
Qed.

Lemma emits_walk_loop sdir ddir w :
  emits_only subpage_event (walk_loop E sdir ddir w).
Proof.
  induction w as [|[d files] r IH]; simpl; [apply emits_ret|].
  apply emits_bind; [apply emits_files_loop | intros; exact IH].
Qed.

Lemma emits_convert_subpages c : emits_only subpage_event (convert_subpages E c).
Proof.
  unfold convert_subpages.
  destruct (subpages_folder (cm c)); [|apply emits_ret].
  destruct (subpages_enabled _); [|apply emits_ret].
  destruct (source_at E _); [apply emits_walk_loop | apply emits_ret].
Qed.

End Loops.

(* ------------------------------------------------------------------ *)
(** ** The shape of a run *)

(** the events of a run that gets through every step, the subpage loop
    contributing [ext] *)
Definition shape (file : string) (c : config) (ext : list event) : list event :=
  [LoadConfig file; Fetch (source_repository c);
   Print ("Destination folder: " ++ destination_folder (cm c))%string;
   CreateStructure (destination_folder (cm c));
   Convert (home_src c) (home_dst c) ["source_repo"]]
  ++ ext ++ [CopyAssets ["source_repo"] (media_dst c); Echo "Website generated successfully!"].

Definition is_prefix (l1 l2 : list event) : Prop := exists rest, l2 = l1 ++ rest.

Lemma run_shape E file f0 :
  match load_config E file with
  | None => run_trace E file f0 = [LoadConfig file]
  | Some c =>
      exists st ext,
        trace (snd (convert_subpages E c st)) = trace st ++ ext /\
        Forall subpage_event ext /\
        hd_error (run_trace E file f0) = Some (LoadConfig file) /\
        is_prefix (run_trace E file f0) (shape file c ext)
  end.
Proof.
  unfold run_trace, run, generate, load_config_m, fetch_m, create_structure_m,
    convert_file_m, copy_assets_m, bind, emit, get_fs, set_fs, ret, raise.
  simpl. destruct (load_config E file) as [c|] eqn:Hl; [|reflexivity].
  simpl.
  set (st0 := {| fs := f0; trace := [] |}).
  destruct (emits_convert_subpages E c st0) as [ext0 [H0 F0]].
  destruct (fetch E (source_repository c)) eqn:Hf; simpl;
    [| exists st0, ext0; repeat split; auto; eexists; reflexivity].
  destruct (create_structure E _ c f0) as [f1|] eqn:Hc; simpl;
    [| exists st0, ext0; repeat split; auto; eexists; reflexivity].
  destruct (convert_file E _ _ _ f1) as [f2|] eqn:Hh; simpl;
    [| exists st0, ext0; repeat split; auto; eexists; reflexivity].
  match goal with |- context [convert_subpages E c ?st] => set (st1 := st) end.
  destruct (emits_convert_subpages E c st1) as [ext [H1 F1]].
  exists st1, ext. split; [exact H1|]. split; [exact F1|].
  destruct (convert_subpages E c st1) as [[u|] st2] eqn:Hs; simpl in H1 |- *.
  - destruct (copy_assets E _ _ (fs st2)); simpl; rewrite H1; (split; [reflexivity|]).
    + eexists. unfold shape. simpl. rewrite <- !app_assoc. reflexivity.
    + exists [Echo "Website generated successfully!"]. unfold shape. simpl.
      rewrite <- !app_assoc. reflexivity.
  - rewrite H1. split; [reflexivity|].
    exists [CopyAssets ["source_repo"] (media_dst c); Echo "Website generated successfully!"].
    unfold shape. reflexivity.
Qed.

Definition convert_calls (tr : list event) : list (path * path * path) :=
  flat_map (fun e => match e with Convert s d b => [(s, d, b)] | _ => [] end) tr.

Definition first_convert (tr : list event) : option (path * path * path) :=
  hd_error (convert_calls tr).

(** ** C3 *)

(** C3: the first conversion of every run is the home page, from
    [source_repo/<home>] to [<dest>/index.md] at the destination root;
    a run that converts nothing stopped before it. *)
Theorem C3_home_first (E : env) (file : string) (f0 : fsys) :
  first_convert (run_trace E file f0) = None \/
  exists c, load_config E file = Some c /\
    first_convert (run_trace E file f0) =
      Some (["source_repo"; home_page_source (cm c)],
            [destination_folder (cm c); "index.md"], ["source_repo"]).
Proof.
  pose proof (run_shape E file f0) as Hs.
  destruct (load_config E file) as [c|] eqn:Hl.
  - destruct Hs as (st & ext & _ & _ & _ & rest & Hp).
    unfold first_convert.
    destruct (convert_calls (run_trace E file f0)) as [|x r] eqn:Hc; [now left|].
    right. exists c. split; [reflexivity|].
    apply (f_equal convert_calls) in Hp. unfold convert_calls in Hp, Hc.
    rewrite flat_map_app, Hc in Hp. simpl in Hp |- *. injection Hp as Hx _. subst x. reflexivity.
  - left. rewrite Hs. reflexivity.
Qed.

(* ------------------------------------------------------------------ *)
(** ** Skipping the subpages *)

Definition set_subpages_folder (c : config) (o : option string) : config := {|
  source_repository := source_repository c;
  cm := {| home_page_source := home_page_source (cm c);
           subpages_folder := o;
           destination_folder := destination_folder (cm c);
           media_destination_folder := media_destination_folder (cm c) |} |}.

Lemma convert_subpages_skip E c :
  subpages_enabled (subpages_folder (cm c)) = false \/
  (exists sub, subpages_folder (cm c) = Some sub /\
               source_at E ("source_repo/" ++ sub)%string = None) ->
  forall st, convert_subpages E c st = (Some tt, st).
Proof.
  intros H st. unfold convert_subpages.
  destruct H as [Hd | (sub & Hs & Hn)].
  - destruct (subpages_folder (cm c)) as [sub|]; [|reflexivity].
    now rewrite Hd.
  - rewrite Hs. destruct (subpages_enabled (Some sub)); [|reflexivity].
    now rewrite Hn.
Qed.

Lemma run_shape_skip E file f0 c :
  load_config E file = Some c ->
  (forall st, convert_subpages E c st = (Some tt, st)) ->
  is_prefix (run_trace E file f0) (shape file c []).
Proof.
  intros Hl Hskip. pose proof (run_shape E file f0) as Hs. rewrite Hl in Hs.
  destruct Hs as (st & ext & He & _ & _ & Hp).
  rewrite Hskip in He. simpl in He.
  replace ext with (@nil event) in Hp; [exact Hp|].
  symmetry. apply (app_inv_head (trace st)). now rewrite app_nil_r.
Qed.

(** ** C5 *)

(** C5 (as stated, refuted): with no subpages folder configured, and
    with a configured folder [docs] that is absent, the run emits
    nothing between the home conversion and the asset copy: its only
    messages are the destination message and the success message, so
    no warning is given. *)
Lemma C5_no_warning_counterexample :
  run_trace (sample_env None (fun _ => None)) "config.yml" empty_fs =
    shape "config.yml" (sample_config None) [] /\
  run_trace (sample_env (Some "docs") (fun _ => None)) "config.yml" empty_fs =
    shape "config.yml" (sample_config (Some "docs")) [].
Proof. split; vm_compute; reflexivity. Qed.

(** C5 (amended): with no subpages folder configured (null, empty or
    ["<none>"]) or a configured one absent on disk, the subpage step
    returns at once without raising, emitting nothing and leaving the
    file system alone (no warning), and the run goes on to the asset
    copy: its trace is a prefix of the run without subpage events. *)
Theorem C5_silent_skip (E : env) (file : string) (f0 : fsys) (c : config) :
  load_config E file = Some c ->
  subpages_enabled (subpages_folder (cm c)) = false \/
  (exists sub, subpages_folder (cm c) = Some sub /\
               source_at E ("source_repo/" ++ sub)%string = None) ->
  (forall st, convert_subpages E c st = (Some tt, st)) /\
  is_prefix (run_trace E file f0) (shape file c []).
Proof.
  intros Hl Hc. pose proof (convert_subpages_skip E c Hc) as Hskip.
  split; [exact Hskip|]. now apply run_shape_skip.
Qed.

Lemma C5_silent_skip_witness :
  let E := sample_env (Some "docs") (fun _ => None) in
  (forall st, convert_subpages E (sample_config (Some "docs")) st = (Some tt, st)) /\
  is_prefix (run_trace E "config.yml" empty_fs) (shape "config.yml" (sample_config (Some "docs")) []).
Proof.
  intros E. apply (C5_silent_skip E "config.yml" empty_fs (sample_config (Some "docs"))).
  - reflexivity.
  - right. exists "docs". split; reflexivity.
Defined.

(** ** C8 *)

(** C8: a subpages folder set to the literal ["<none>"] is treated as
    no folder at all: the subpage step does nothing, whatever lies at
    [source_repo/<none>], exactly as with a null folder. *)
Theorem C8_none_literal (E : env) (c : config) :
  subpages_folder (cm c) = Some "<none>" ->
  forall st, convert_subpages E c st = (Some tt, st) /\
             convert_subpages E c st = convert_subpages E (set_subpages_folder c None) st.
Proof.
  intros Hn st.
  assert (Hskip : forall E' c', subpages_folder (cm c') = Some "<none>" \/
                               subpages_folder (cm c') = None ->
                               convert_subpages E' c' st = (Some tt, st)).
  { intros E' c' [H|H]; apply convert_subpages_skip; left; now rewrite H. }
  rewrite !Hskip by auto. split; reflexivity.
Qed.

Lemma C8_none_literal_witness :
  let srcs := one_dir "source_repo/<none>" (Node ["page.md"] []) in
  let E := sample_env (Some "<none>") srcs in
  let st := {| fs := empty_fs; trace := [] |} in
  source_at E "source_repo/<none>" = Some (SrcDir (Node ["page.md"] [])) /\
  subpages_folder (cm (sample_config (Some "<none>"))) = Some "<none>" /\
  convert_subpages E (sample_config (Some "<none>")) st = (Some tt, st).
Proof.
  intros srcs E st. split; [reflexivity|]. split; [reflexivity|].
  exact (proj1 (C8_none_literal E (sample_config (Some "<none>")) eq_refl st)).
Defined.

(* ------------------------------------------------------------------ *)
(** ** Runs that complete *)

Definition convert_sources (tr : list event) : list path :=
  map (fun '(s, _, _) => s) (convert_calls tr).

(** the events of the loop body for a markdown file *)
Definition step_events (sdir : path) (ddir : string) (d : path) (f : string) : list event :=
  [MakeDirs (subpage_dest_dir ddir (d ++ [f]));
   Convert (sdir ++ d ++ [f]) (subpage_dest_dir ddir (d ++ [f]) ++ ["index.md"]) ["source_repo"]].

Definition files_events (sdir : path) (ddir : string) (d : path) (files : list string) : list event :=
  flat_map (fun f => if PyStr.endswith ".md" f then step_events sdir ddir d f else []) files.

Definition loop_events (sdir : path) (ddir : string) (w : list (path * list string)) : list event :=
  flat_map (fun '(d, files) => files_events sdir ddir d files) w.

Section CompleteLoops.

Variable E : env.

Lemma subpage_step_ok sdir ddir d f st u st' :
  subpage_step E sdir ddir d f st = (Some u, st') ->
  trace st' = trace st ++ step_events sdir ddir d f.
Proof.
  unfold subpage_step, makedirs_m, convert_file_m, bind, emit, get_fs, set_fs, raise.
  simpl. destruct (makedirs _ true (fs st)) as [f1|e]; simpl; [|discriminate].
  destruct (convert_file E _ _ _ f1); simpl; intros [= _ <-]; simpl.
  now rewrite <- app_assoc.
Qed.

Lemma files_loop_ok sdir ddir d files st u st' :
  files_loop E sdir ddir d files st = (Some u, st') ->
  trace st' = trace st ++ files_events sdir ddir d files.
Proof.
  revert st; induction files as [|f r IH]; intros st H; simpl in *.
  - injection H as _ <-. now rewrite app_nil_r.
  - unfold bind at 1 in H. destruct (PyStr.endswith ".md" f).
    + destruct (subpage_step E sdir ddir d f st) as [[v|] st1] eqn:Hs; [|discriminate].
      apply subpage_step_ok in Hs. rewrite (IH _ H), Hs. symmetry; apply app_assoc.
    + apply IH in H. exact H.
Qed.

Lemma walk_loop_ok sdir ddir w st u st' :
  walk_loop E sdir ddir w st = (Some u, st') ->
  trace st' = trace st ++ loop_events sdir ddir w.
Proof.
  revert st; induction w as [|[d files] r IH]; intros st H; simpl in *.
  - injection H as _ <-. now rewrite app_nil_r.
  - unfold bind in H.
    destruct (files_loop E sdir ddir d files st) as [[v|] st1] eqn:Hs; [|discriminate].
    apply files_loop_ok in Hs. rewrite (IH _ H), Hs. symmetry; apply app_assoc.
Qed.

End CompleteLoops.

Lemma run_ok_shape E file f0 c :
  load_config E file = Some c -> run_ok E file f0 = true ->
  exists st st',
    trace st = [LoadConfig file; Fetch (source_repository c);
                Print ("Destination folder: " ++ destination_folder (cm c))%string;
                CreateStructure (destination_folder (cm c));
                Convert (home_src c) (home_dst c) ["source_repo"]] /\
    convert_subpages E c st = (Some tt, st') /\
    run_trace E file f0 = trace st' ++ [CopyAssets ["source_repo"] (media_dst c);
                                       Echo "Website generated successfully!"].
Proof.
  intros Hl. unfold run_ok, run_trace, run, generate, load_config_m, fetch_m,
    create_structure_m, convert_file_m, copy_assets_m, bind, emit, get_fs, set_fs, ret, raise.
  simpl. rewrite Hl. simpl.
  destruct (fetch E (source_repository c)); simpl; [|discriminate].
  destruct (create_structure E _ c f0) as [f1|]; simpl; [|discriminate].
  destruct (convert_file E _ _ _ f1) as [f2|]; simpl; [|discriminate].
  match goal with |- context [convert_subpages E c ?st] => set (st1 := st) end.
  destruct (convert_subpages E c st1) as [[[]|] st2] eqn:Hs; simpl; [|discriminate].
  destruct (copy_assets E _ _ (fs st2)); simpl; [|discriminate].
  intros _. exists st1, st2. split; [reflexivity|]. split; [exact Hs|].
  now rewrite <- app_assoc.
Qed.

Lemma convert_sources_app l1 l2 :
  convert_sources (l1 ++ l2) = convert_sources l1 ++ convert_sources l2.
Proof. unfold convert_sources, convert_calls. now rewrite flat_map_app, map_app. Qed.

Lemma convert_sources_loop sdir ddir w :
  convert_sources (loop_events sdir ddir w) =
  flat_map (fun '(d, files) =>
              map (fun f => sdir ++ d ++ [f]) (filter (PyStr.endswith ".md") files)) w.
Proof.
  induction w as [|[d files] r IH]; [reflexivity|].
  change (loop_events sdir ddir ((d, files) :: r))
    with (files_events sdir ddir d files ++ loop_events sdir ddir r).
  rewrite convert_sources_app, IH. cbn [flat_map]. f_equal. clear IH.
  induction files as [|f fs IH]; [reflexivity|].
  change (files_events sdir ddir d (f :: fs))
    with ((if PyStr.endswith ".md" f then step_events sdir ddir d f else [])
          ++ files_events sdir ddir d fs).
  rewrite convert_sources_app, IH. cbn [filter].
  destruct (PyStr.endswith ".md" f); reflexivity.
Qed.

Lemma md_walk_files sdir (w : list (path * list string)) :
  flat_map (fun '(d, files) =>
              map (fun f => sdir ++ d ++ [f]) (filter (PyStr.endswith ".md") files)) w =
  map (fun '(d, f) => sdir ++ d ++ [f])
      (filter (fun '(_, f) => PyStr.endswith ".md" f)
              (flat_map (fun '(d, fs) => map (fun f => (d, f)) fs) w)).
Proof.
  induction w as [|[d files] r IH]; [reflexivity|].
  simpl. rewrite filter_app, map_app, IH. f_equal. clear IH.
  induction files as [|f fs IH]; [reflexivity|].
  simpl. destruct (PyStr.endswith ".md" f); simpl; now rewrite IH.
Qed.

(* ------------------------------------------------------------------ *)
(** ** Every run: a prefix of the loop's events *)

(** [m] emits a prefix of [evs]; all of [evs] when it returns *)
Definition emits_prefix {A} (evs : list event) (m : M A) : Prop :=
  forall st, exists ext rest,
    trace (snd (m st)) = trace st ++ ext /\ evs = ext ++ rest /\
    (fst (m st) = None \/ rest = []).

Lemma prefix_ret {A} (a : A) : emits_prefix [] (ret a).
Proof. intros st. exists [], []. simpl. rewrite app_nil_r. auto. Qed.

Lemma prefix_raise {A} evs : emits_prefix evs (@raise A).
Proof. intros st. exists [], evs. simpl. rewrite app_nil_r. auto. Qed.

Lemma prefix_emit e : emits_prefix [e] (emit e).
Proof. intros st. exists [e], []. simpl. auto. Qed.

Lemma prefix_get_fs : emits_prefix [] get_fs.
Proof. intros st. exists [], []. simpl. rewrite app_nil_r. auto. Qed.

Lemma prefix_set_fs f : emits_prefix [] (set_fs f).
Proof. intros st. exists [], []. simpl. rewrite app_nil_r. auto. Qed.

Lemma prefix_bind {A B} e1 e2 (m : M A) (k : A -> M B) :
  emits_prefix e1 m -> (forall a, emits_prefix e2 (k a)) -> emits_prefix (e1 ++ e2) (bind m k).
Proof.
  intros H1 H2 st. unfold bind.
  destruct (H1 st) as (x1 & r1 & Ht1 & He1 & Hr1).
  destruct (m st) as [[a|] st1]; simpl in *.
  - destruct Hr1 as [Hr1 | ->]; [discriminate|].
    destruct (H2 a st1) as (x2 & r2 & Ht2 & He2 & Hr2).
    exists (x1 ++ x2), r2. split; [now rewrite Ht2, Ht1, app_assoc|].
    split; [now rewrite He1, He2, app_nil_r, app_assoc|]. exact Hr2.
  - exists x1, (r1 ++ e2). split; [exact Ht1|]. split; [now rewrite He1, app_assoc|]. now left.
Qed.

Lemma prefix_eq {A} evs evs' (m : M A) : evs' = evs -> emits_prefix evs m -> emits_prefix evs' m.
Proof. now intros ->. Qed.

Ltac prefix_step :=
  repeat first
    [ apply prefix_ret | apply prefix_raise | apply prefix_emit | apply prefix_get_fs
    | apply prefix_set_fs
    | match goal with |- emits_prefix _ (match ?x with _ => _ end) => destruct x end
    | match goal with
      | |- emits_prefix _ (bind (emit ?e) _) =>
          apply (prefix_eq ([e] ++ [])); [reflexivity|]; apply prefix_bind; [|intros]
      | |- emits_prefix _ (bind get_fs _) =>
          apply (prefix_eq ([] ++ [])); [reflexivity|]; apply prefix_bind; [|intros]
      end ].

(** the events of the subpage loop of [convert_subpages] when no step
    raises: the loop events of the walk of the existing subpages folder *)
Definition subpage_events (E : env) (c : config) : list event :=
  match subpages_folder (cm c) with
  | Some sub =>
      if subpages_enabled (Some sub) then
        match source_at E ("source_repo/" ++ sub)%string with
        | Some n => loop_events ["source_repo"; sub] (destination_folder (cm c)) (walk_node n)
        | None => []
        end
      else []
  | None => []
  end.

Section PrefixLoops.

Variable E : env.

Lemma prefix_subpage_step sdir ddir d f :
  emits_prefix (step_events sdir ddir d f) (subpage_step E sdir ddir d f).
Proof.
  unfold subpage_step, step_events, makedirs_m, convert_file_m.
  apply (prefix_eq ([MakeDirs (subpage_dest_dir ddir (d ++ [f]))] ++
                    [Convert (sdir ++ d ++ [f]) (subpage_dest_dir ddir (d ++ [f]) ++ ["index.md"])
                             ["source_repo"]])); [reflexivity|].
  apply prefix_bind; intros; prefix_step.
Qed.

Lemma prefix_files_loop sdir ddir d files :
  emits_prefix (files_events sdir ddir d files) (files_loop E sdir ddir d files).
Proof.
  induction files as [|f r IH]; simpl; [apply prefix_ret|].
  change (files_events sdir ddir d (f :: r))
    with ((if PyStr.endswith ".md" f then step_events sdir ddir d f else [])
          ++ files_events sdir ddir d r).
  apply prefix_bind; [|intros; exact IH].
  destruct (PyStr.endswith ".md" f); [apply prefix_subpage_step | apply prefix_ret].
Qed.

Lemma prefix_walk_loop sdir ddir w :
  emits_prefix (loop_events sdir ddir w) (walk_loop E sdir ddir w).
Proof.
  induction w as [|[d files] r IH]; simpl; [apply prefix_ret|].
  change (loop_events sdir ddir ((d, files) :: r))
    with (files_events sdir ddir d files ++ loop_events sdir ddir r).
  apply prefix_bind; [apply prefix_files_loop | intros; exact IH].
Qed.

Lemma prefix_convert_subpages c : emits_prefix (subpage_events E c) (convert_subpages E c).
Proof.
  unfold convert_subpages, subpage_events.
  destruct (subpages_folder (cm c)) as [sub|]; [|apply prefix_ret].
  destruct (subpages_enabled (Some sub)); [|apply prefix_ret].
  destruct (source_at E _) as [n|]; [apply prefix_walk_loop | apply prefix_ret].
Qed.

End PrefixLoops.

(** the first five events of a run that gets past the home page *)
Definition head_events (file : string) (c : config) : list event :=
  [LoadConfig file; Fetch (source_repository c);
   Print ("Destination folder: " ++ destination_folder (cm c))%string;
   CreateStructure (destination_folder (cm c));
   Convert (home_src c) (home_dst c) ["source_repo"]].

Lemma shape_head file c ext :
  shape file c ext =
  head_events file c ++ ext ++ [CopyAssets ["source_repo"] (media_dst c); Echo "Website generated successfully!"].
Proof. reflexivity. Qed.

(** every run emits a prefix of the events of the run in which no step
    raises *)
Lemma run_prefix E file f0 c :
  load_config E file = Some c ->
  is_prefix (run_trace E file f0) (shape file c (subpage_events E c)).
Proof.
  intros Hl.
  unfold run_trace, run, generate, load_config_m, fetch_m, create_structure_m,
    convert_file_m, copy_assets_m, bind, emit, get_fs, set_fs, ret, raise.
  simpl. rewrite Hl. simpl.
  destruct (fetch E (source_repository c)); simpl; [|eexists; reflexivity].
  destruct (create_structure E _ c f0) as [f1|]; simpl; [|eexists; reflexivity].
  destruct (convert_file E _ _ _ f1) as [f2|]; simpl; [|eexists; reflexivity].
  match goal with |- context [convert_subpages E c ?st] => set (st1 := st) end.
  destruct (prefix_convert_subpages E c st1) as (ext & rest & H1 & HL & Hr).
  rewrite shape_head, HL.
  destruct (convert_subpages E c st1) as [[u|] st2]; simpl in H1, Hr |- *.
  - destruct Hr as [Hr | ->]; [discriminate|]. rewrite app_nil_r.
    destruct (copy_assets E _ _ (fs st2)); simpl; rewrite H1.
    + exists []. unfold head_events. simpl. now rewrite <- !app_assoc.
    + exists [Echo "Website generated successfully!"]. unfold head_events. simpl.
      now rewrite <- !app_assoc.
  - rewrite H1. exists (rest ++ [CopyAssets ["source_repo"] (media_dst c); Echo "Website generated successfully!"]).
    unfold head_events. simpl. now rewrite <- !app_assoc.
Qed.

(** a prefix of [a ++ x :: r] that holds [x], not in [a], extends [a ++ [x]] *)
Lemma prefix_past (tr a r : list event) x :
  is_prefix tr (a ++ x :: r) -> In x tr -> ~ In x a -> exists m, tr = a ++ x :: m.
Proof.
  intros [rest Hp] Hin Ha. symmetry in Hp. apply app_eq_app in Hp as [l [[-> H2]|[-> H2]]].
  - destruct l as [|y l].
    + rewrite app_nil_r in Hin. contradiction.
    + injection H2 as -> _. now exists l.
  - exfalso. apply Ha. apply in_or_app. now left.
Qed.

Lemma step_events_subpage sdir ddir d f : Forall subpage_event (step_events sdir ddir d f).
Proof. repeat constructor. Qed.

Lemma loop_events_subpage sdir ddir w : Forall subpage_event (loop_events sdir ddir w).
Proof.
  apply Forall_forall. intros e He. unfold loop_events in He.
  apply in_flat_map in He as [[d files] [_ He]]. unfold files_events in He.
  apply in_flat_map in He as [f [_ He]]. destruct (PyStr.endswith ".md" f); [|destruct He].
  revert e He. apply Forall_forall, step_events_subpage.
Qed.

Lemma subpage_events_subpage E c : Forall subpage_event (subpage_events E c).
Proof.
  unfold subpage_events.
  destruct (subpages_folder (cm c)) as [sub|]; [|constructor].
  destruct (subpages_enabled (Some sub)); [|constructor].
  destruct (source_at E _); [apply loop_events_subpage | constructor].
Qed.

(** a run that reaches the asset copy has emitted every event of the
    subpage loop *)
Lemma run_reaches_assets E file f0 c :
  load_config E file = Some c ->
  In (CopyAssets ["source_repo"] (media_dst c)) (run_trace E file f0) ->
  run_trace E file f0 = (head_events file c ++ subpage_events E c) ++ [CopyAssets ["source_repo"] (media_dst c)] \/
  run_trace E file f0 = (head_events file c ++ subpage_events E c) ++
                          [CopyAssets ["source_repo"] (media_dst c); Echo "Website generated successfully!"].
Proof.
  intros Hl Hin.
  pose proof (run_prefix E file f0 c Hl) as Hp. rewrite shape_head, app_assoc in Hp.
  destruct (prefix_past _ _ [Echo "Website generated successfully!"] _ Hp Hin) as [m Hm].
  - intros Ha. apply in_app_or in Ha as [Ha|Ha].
    + unfold head_events in Ha. simpl in Ha. intuition discriminate.
    + pose proof (subpage_events_subpage E c) as F. rewrite Forall_forall in F.
      exact (F _ Ha).
  - destruct Hp as [rest Hp]. rewrite Hm in Hp. rewrite <- !app_assoc in Hp.
    apply app_inv_head in Hp. apply app_inv_head in Hp. simpl in Hp.
    injection Hp as Hp. rewrite Hm.
    destruct m as [|y m]; [now left|]. right. injection Hp as -> Hp.
    destruct m; [reflexivity | discriminate Hp].
Qed.

Lemma subpage_events_walk E c sub t :
  subpages_folder (cm c) = Some sub ->
  subpages_enabled (Some sub) = true ->
  source_at E ("source_repo/" ++ sub)%string = Some (SrcDir t) ->
  convert_sources (subpage_events E c) =
    map (fun '(d, f) => ["source_repo"; sub] ++ d ++ [f])
        (filter (fun '(_, f) => PyStr.endswith ".md" f) (walk_files t)).
Proof.
  intros Hs He Ht. unfold subpage_events. rewrite Hs, He, Ht. simpl walk_node.
  rewrite convert_sources_loop, md_walk_files. reflexivity.
Qed.

Lemma convert_sources_head file c : convert_sources (head_events file c) = [home_src c].
Proof. reflexivity. Qed.

(** the sources a run converts: a prefix of those of the run in which
    no step raises, all of them once it reaches the asset copy *)
Lemma run_sources E file f0 c :
  load_config E file = Some c ->
  (exists rest, home_src c :: convert_sources (subpage_events E c) =
                convert_sources (run_trace E file f0) ++ rest) /\
  (In (CopyAssets ["source_repo"] (media_dst c)) (run_trace E file f0) ->
   convert_sources (run_trace E file f0) = home_src c :: convert_sources (subpage_events E c)).
Proof.
  intros Hl. split.
  - destruct (run_prefix E file f0 c Hl) as [rest Hp]. exists (convert_sources rest).
    rewrite <- convert_sources_app, <- Hp, shape_head, !convert_sources_app.
    simpl. now rewrite app_nil_r.
  - intros Hin. destruct (run_reaches_assets E file f0 c Hl Hin) as [-> | ->];
      rewrite !convert_sources_app; simpl; now rewrite !app_nil_r.
Qed.

(* ------------------------------------------------------------------ *)
(** ** C4 *)

Lemma path_eqb_eq p q : path_eqb p q = true -> p = q.
Proof.
  revert q; induction p as [|x p IH]; intros [|y q] H; simpl in H; try discriminate; auto.
  apply andb_prop in H as [H1 H2]. apply String.eqb_eq in H1 as ->. now rewrite (IH q H2).
Qed.

Lemma path_eqb_refl p : path_eqb p p = true.
Proof. induction p as [|x p IH]; simpl; [reflexivity|]. now rewrite String.eqb_refl, IH. Qed.

(** the step of a run of configuration [c] an event belongs to:
    configuration load (0), fetch (1), the destination message (2),
    layout creation (3), the home-page conversion (4), the subpage
    traversal (5), asset copying (6), the final message (7) *)
Definition phase (c : config) (e : event) : nat :=
  match e with
  | LoadConfig _ => 0 | Fetch _ => 1 | Print _ => 2 | CreateStructure _ => 3
  | Convert s d b =>
      if path_eqb s (home_src c) && path_eqb d (home_dst c) && path_eqb b ["source_repo"]
      then 4 else 5
  | MakeDirs _ => 5 | CopyAssets _ _ => 6 | Echo _ => 7
  end.

(** step [x] may follow step [k]: the same step, the next one, or asset
    copying right after the home page (a traversal with nothing to
    convert emits nothing) *)
Definition next_step (k x : nat) : bool :=
  Nat.eqb x k || Nat.eqb x (S k) || (Nat.eqb k 4 && Nat.eqb x 6).

Fixpoint chain (k : nat) (l : list nat) : bool :=
  match l with
  | [] => true
  | x :: r => next_step k x && chain x r
  end.

(** the trace starts with the configuration load and goes through the
    steps in order: none revisited, and none skipped but the subpage
    traversal *)
Definition in_step_order (c : config) (tr : list event) : bool :=
  match map (phase c) tr with
  | [] => false
  | x :: r => Nat.eqb x 0 && chain x r
  end.

Lemma chain_prefix k l1 l2 : chain k (l1 ++ l2) = true -> chain k l1 = true.
Proof.
  revert k; induction l1 as [|x r IH]; intros k H; simpl in *; auto.
  apply andb_prop in H as [H1 H2]. rewrite H1. simpl. now apply IH.
Qed.

Lemma path_eqb_length p q : path_eqb p q = true -> length p = length q.
Proof. intros H. now rewrite (path_eqb_eq p q H). Qed.

Lemma step_events_phase c sdir d f :
  Forall (fun e => phase c e = 5) (step_events sdir (destination_folder (cm c)) d f).
Proof.
  constructor; [reflexivity|]. constructor; [|constructor]. cbn [phase step_events].
  destruct (path_eqb (subpage_dest_dir (destination_folder (cm c)) (d ++ [f]) ++ ["index.md"])
                     (home_dst c)) eqn:Hd; [|now rewrite andb_false_r].
  apply path_eqb_length in Hd. unfold subpage_dest_dir in Hd.
  rewrite splitext_root_path_snoc in Hd. simpl in Hd. rewrite !length_app in Hd. simpl in Hd. lia.
Qed.

Lemma subpage_events_phase E c : Forall (fun e => phase c e = 5) (subpage_events E c).
Proof.
  unfold subpage_events.
  destruct (subpages_folder (cm c)) as [sub|]; [|constructor].
  destruct (subpages_enabled (Some sub)); [|constructor].
  destruct (source_at E _) as [n|]; [|constructor].
  apply Forall_forall. intros e He. unfold loop_events in He.
  apply in_flat_map in He as [[d files] [_ He]]. unfold files_events in He.
  apply in_flat_map in He as [f [_ He]]. destruct (PyStr.endswith ".md" f); [|destruct He].
  revert e He. apply Forall_forall, step_events_phase.
Qed.

Lemma chain_fives l : Forall (fun x => x = 5) l -> chain 4 (l ++ [6; 7]) = true.
Proof.
  intros F. destruct F as [|x l Hx F]; [reflexivity|]. subst x. simpl.
  induction F as [|x l Hx F IH]; [reflexivity|]. subst x. exact IH.
Qed.

Lemma in_step_order_shape E file c :
  in_step_order c (shape file c (subpage_events E c)) = true.
Proof.
  unfold in_step_order. rewrite shape_head, !map_app. unfold head_events. simpl.
  rewrite !String.eqb_refl. simpl. apply chain_fives, Forall_map, subpage_events_phase.
Qed.

(** C4: every run goes through configuration load, fetch, layout
    creation, home-page conversion, subpage traversal and asset copying
    in this order: the trace is a prefix of that sequence, no step's
    events come after a later step's, and no step is skipped while a
    later one runs, but the traversal, which emits nothing when there
    is nothing to convert.  So the home page is converted before any
    subpage, layout creation never follows a conversion and asset
    copying never precedes one.  A run whose configuration does not
    load stops after that load. *)
Theorem C4_step_order (E : env) (file : string) (f0 : fsys) :
  match load_config E file with
  | None => run_trace E file f0 = [LoadConfig file]
  | Some c => in_step_order c (run_trace E file f0) = true
  end.
Proof.
  pose proof (run_shape E file f0) as Hs.
  destruct (load_config E file) as [c|] eqn:Hl; [|exact Hs].
  destruct Hs as (_ & _ & _ & _ & Hd & _).
  destruct (run_prefix E file f0 c Hl) as [rest Hp].
  pose proof (in_step_order_shape E file c) as Hsh.
  rewrite Hp in Hsh. unfold in_step_order in *. rewrite map_app in Hsh.
  destruct (run_trace E file f0) as [|e tr]; [discriminate|].
  simpl in *. apply andb_prop in Hsh as [H0 H1]. rewrite H0.
  simpl. now apply chain_prefix in H1.
Qed.

Lemma in_tree_walk d f t :
  in_tree d f t -> forall pre, exists fs, In (pre ++ d, fs) (walk pre t) /\ In f fs.
Proof.
  induction 1 as [f fs ds Hf | n t d f fs ds Hn _ IH]; intros pre.
  - exists fs. rewrite app_nil_r. split; [now left | exact Hf].
  - destruct (IH (pre ++ [n])) as [fs' [Hw Hf]]. exists fs'. split; [|exact Hf].
    simpl. right. apply in_flat_map. exists (n, t). split; [exact Hn|].
    rewrite <- app_assoc in Hw. exact Hw.
Qed.

Lemma in_tree_walk_files d f t : in_tree d f t -> In (d, f) (walk_files t).
Proof.
  intros H. destruct (in_tree_walk d f t H []) as [fs [Hw Hf]].
  unfold walk_files. apply in_flat_map. exists ([] ++ d, fs). split; [exact Hw|].
  apply in_map_iff. exists f. split; [reflexivity | exact Hf].
Qed.

(** lexical order of the paths as the strings the code builds *)
Fixpoint sorted_lex (l : list path) : bool :=
  match l with
  | x :: ((y :: _) as r) => String.leb (String.concat "/" x) (String.concat "/" y) && sorted_lex r
  | _ => true
  end.

Definition nested_tree : tree := Node ["z.md"] [("a", Node ["x.md"] [])].

Definition nested_env : env := sample_env (Some "docs") (one_dir "source_repo/docs" nested_tree).

Definition mixed_tree : tree := Node ["a.md"; "B.MD"; "notes.txt"] [("sub", Node ["c.md"] [])].

Definition mixed_env : env := sample_env (Some "docs") (one_dir "source_repo/docs" mixed_tree).

(** the collaborators of [mixed_env], with a converter that raises on
    [source_repo/docs/a.md] *)
Definition raising_env : env := {|
  load_config := fun _ => Some (sample_config (Some "docs"));
  fetch := fun _ => true;
  source_at := one_dir "source_repo/docs" mixed_tree;
  create_structure := fun d _ f => Some (fs_set f [d] DirK);
  convert_file := fun src dst _ f =>
    if path_eqb src ["source_repo"; "docs"; "a.md"] then None else Some (fs_set f dst FileK);
  copy_assets := fun _ _ f => Some f |}.

(** ** C6 *)

(** C6 (as stated, refuted): [os.walk] lists a directory's own files
    before descending, so [docs/z.md] is converted before
    [docs/a/x.md], against lexical order. *)
Lemma C6_order_counterexample :
  let srcs := tl (convert_sources (run_trace nested_env "config.yml" empty_fs)) in
  srcs = [["source_repo"; "docs"; "z.md"]; ["source_repo"; "docs"; "a"; "x.md"]] /\
  sorted_lex srcs = false.
Proof. vm_compute. split; reflexivity. Qed.

(** the home page, then the markdown files of the subpages tree [t] in
    [os.walk] order: a directory's files in listing order, then each
    subdirectory in listing order, recursively *)
Definition walk_order (c : config) (sub : string) (t : tree) : list path :=
  home_src c :: map (fun '(d, f) => ["source_repo"; sub] ++ d ++ [f])
                    (filter (fun '(_, f) => PyStr.endswith ".md" f) (walk_files t)).

(** C6 (amended): every run converts a prefix of [walk_order], the
    home page and then the markdown files in [os.walk] order; a run
    stopped by a raising step converts the files visited before it, and
    a run that reaches the asset copy converts all of them, in that
    order.  The order is a function of the tree and its listings alone,
    so runs over the same listed tree convert in the same order; it is
    not lexical in general. *)
Theorem C6_walk_order (E : env) (file : string) (f0 : fsys) (c : config) (sub : string) (t : tree) :
  load_config E file = Some c ->
  subpages_folder (cm c) = Some sub ->
  subpages_enabled (Some sub) = true ->
  source_at E ("source_repo/" ++ sub)%string = Some (SrcDir t) ->
  (exists rest, walk_order c sub t = convert_sources (run_trace E file f0) ++ rest) /\
  (In (CopyAssets ["source_repo"] (media_dst c)) (run_trace E file f0) ->
   convert_sources (run_trace E file f0) = walk_order c sub t).
Proof.
  intros Hl Hs He Ht.
  destruct (run_sources E file f0 c Hl) as [Hp Hc].
  rewrite (subpage_events_walk E c sub t Hs He Ht) in Hp, Hc.
  exact (conj Hp Hc).
Qed.

Lemma C6_walk_order_witness :
  convert_sources (run_trace nested_env "config.yml" empty_fs) =
    walk_order (sample_config (Some "docs")) "docs" nested_tree /\
  walk_order (sample_config (Some "docs")) "docs" nested_tree =
    [["source_repo"; "home.md"]; ["source_repo"; "docs"; "z.md"]; ["source_repo"; "docs"; "a"; "x.md"]] /\
  exists rest,
    walk_order (sample_config (Some "docs")) "docs" mixed_tree =
      convert_sources (run_trace raising_env "config.yml" empty_fs) ++ rest.
Proof.
  split; [|split; [reflexivity|]].
  - apply (proj2 (C6_walk_order nested_env "config.yml" empty_fs (sample_config (Some "docs")) "docs"
                    nested_tree eq_refl eq_refl eq_refl eq_refl)).
    vm_compute. find_in.
  - exact (proj1 (C6_walk_order raising_env "config.yml" empty_fs (sample_config (Some "docs")) "docs"
                    mixed_tree eq_refl eq_refl eq_refl eq_refl)).
Defined.

(** ** C9 *)

(** C9 (as stated, refuted): a [.md] file under the subpages folder is
    not converted when an earlier conversion raises: here the converter
    raises on [docs/a.md], the run stops, and [docs/sub/c.md] is never
    passed to [convert_file]. *)
Lemma C9_md_filter_counterexample :
  in_tree ["sub"] "c.md" mixed_tree /\ PyStr.endswith ".md" "c.md" = true /\
  ~ In ["source_repo"; "docs"; "sub"; "c.md"] (convert_sources (run_trace raising_env "config.yml" empty_fs)).
Proof.
  split; [eapply in_sub; [left; reflexivity | apply in_here; left; reflexivity]|].
  split; [reflexivity|]. vm_compute. intuition discriminate.
Qed.

(** C9 (amended): in every run, a file under the subpages folder is
    passed to [convert_file] by the traversal only if its name ends with
    the lowercase [".md"], so [.MD] and other files are never converted;
    every [.md] file of the tree is converted in a run that reaches the
    asset copy, while a run stopped by a raising step converts only
    those visited before it. *)
Theorem C9_md_filter (E : env) (file : string) (f0 : fsys) (c : config) (sub : string) (t : tree) :
  load_config E file = Some c ->
  subpages_folder (cm c) = Some sub ->
  subpages_enabled (Some sub) = true ->
  source_at E ("source_repo/" ++ sub)%string = Some (SrcDir t) ->
  (forall d f, In (["source_repo"; sub] ++ d ++ [f]) (tl (convert_sources (run_trace E file f0))) ->
     PyStr.endswith ".md" f = true) /\
  (In (CopyAssets ["source_repo"] (media_dst c)) (run_trace E file f0) ->
   forall d f, in_tree d f t -> PyStr.endswith ".md" f = true ->
     In (["source_repo"; sub] ++ d ++ [f]) (tl (convert_sources (run_trace E file f0)))).
Proof.
  intros Hl Hs He Ht.
  destruct (run_sources E file f0 c Hl) as [Hp Hc].
  rewrite (subpage_events_walk E c sub t Hs He Ht) in Hp, Hc.
  split.
  - intros d f Hin.
    destruct (convert_sources (run_trace E file f0)) as [|h tr]; [destruct Hin|].
    simpl tl in Hin. destruct Hp as [rest Hp].
    change ((h :: tr) ++ rest) with (h :: (tr ++ rest)) in Hp. injection Hp as _ Hp.
    assert (Hm : In (["source_repo"; sub] ++ d ++ [f]) (tr ++ rest))
      by (apply in_or_app; now left).
    rewrite <- Hp in Hm.
    apply in_map_iff in Hm as [[d' f'] [Heq Hf]]. apply filter_In in Hf as [_ Hmd].
    simpl in Heq. injection Heq as Heq. apply app_inj_tail in Heq as [_ <-]. exact Hmd.
  - intros Hca d f Htr Hmd. rewrite (Hc Hca). simpl tl. apply in_map_iff.
    exists (d, f). split; [reflexivity|].
    apply filter_In. split; [now apply in_tree_walk_files | exact Hmd].
Qed.

Lemma C9_md_filter_witness :
  In ["source_repo"; "docs"; "sub"; "c.md"]
     (tl (convert_sources (run_trace mixed_env "config.yml" empty_fs))) /\
  ~ In ["source_repo"; "docs"; "B.MD"]
     (tl (convert_sources (run_trace mixed_env "config.yml" empty_fs))).
Proof.
  destruct (C9_md_filter mixed_env "config.yml" empty_fs (sample_config (Some "docs")) "docs"
              mixed_tree eq_refl eq_refl eq_refl eq_refl) as [H1 H2].
  split.
  - apply (H2 ltac:(vm_compute; find_in) ["sub"] "c.md").
    + eapply in_sub; [left; reflexivity | apply in_here; left; reflexivity].
    + reflexivity.
  - intros Hin. apply (H1 [] "B.MD") in Hin. discriminate Hin.
Defined.

(* ------------------------------------------------------------------ *)
(** ** Asset relocation *)

(** Modelled from the spec: [AssetHandler.copy_assets] (module
    [divisor.assets], not among the sources) copies every non-markdown
    file reachable under the source root, skipping dot-prefixed
    directories, to [<media destination>/<relative path>], one
    AssetRecord per file. *)
Record asset_record : Type := { asset_src : path; asset_dst : path }.

Fixpoint asset_walk (pre : path) (t : tree) : list (path * list string) :=
  match t with
  | Node fs ds =>
      (pre, fs) :: flat_map (fun '(n, t') =>
                               if String.prefix "." n then [] else asset_walk (pre ++ [n]) t') ds
  end.

Definition asset_records (media_destination : path) (t : tree) : list asset_record :=
  flat_map (fun '(d, fs) =>
              map (fun f => {| asset_src := d ++ [f]; asset_dst := media_destination ++ d ++ [f] |})
                  (filter (fun f => negb (PyStr.endswith ".md" f)) fs))
           (asset_walk [] t).

Lemma asset_records_dst m t r : In r (asset_records m t) -> asset_dst r = m ++ asset_src r.
Proof.
  unfold asset_records. intros H. apply in_flat_map in H as [[d fs] [_ H]].
  apply in_map_iff in H as [f [<- _]]. reflexivity.
Qed.

(** ** C7 *)

(** C7: the only asset copy of a run copies [source_repo] to
    [<dest>/<media>], and (with the relocator modelled from the spec)
    each copied file lands there at its relative path under the source. *)
Theorem C7_media_target (E : env) (file : string) (f0 : fsys) (s d : path) :
  In (CopyAssets s d) (run_trace E file f0) ->
  exists c, load_config E file = Some c /\
    s = ["source_repo"] /\
    d = [destination_folder (cm c); media_destination_folder (cm c)] /\
    (forall t r, In r (asset_records d t) ->
       asset_dst r = [destination_folder (cm c); media_destination_folder (cm c)] ++ asset_src r).
Proof.
  intros Hin. pose proof (run_shape E file f0) as Hs.
  destruct (load_config E file) as [c|] eqn:Hl.
  - destruct Hs as (st & ext & _ & F & _ & rest & Hp).
    assert (Hsh : In (CopyAssets s d) (shape file c ext))
      by (rewrite Hp; apply in_or_app; now left).
    unfold shape in Hsh. simpl in Hsh.
    repeat (destruct Hsh as [Hsh|Hsh]; [discriminate Hsh|]).
    apply in_app_or in Hsh as [Hsh|Hsh].
    + rewrite Forall_forall in F. specialize (F _ Hsh). contradiction.
    + destruct Hsh as [Hsh|[Hsh|[]]]; [|discriminate Hsh].
      injection Hsh as <- <-. exists c. split; [reflexivity|].
      split; [reflexivity|]. split; [reflexivity|].
      intros t r Hr. apply asset_records_dst in Hr. exact Hr.
  - rewrite Hs in Hin. destruct Hin as [Hin|[]]. discriminate Hin.
Qed.

Lemma C7_media_target_witness :
  In (CopyAssets ["source_repo"] ["site"; "assets/media"])
     (run_trace (sample_env None (fun _ => None)) "config.yml" empty_fs) /\
  exists c, load_config (sample_env None (fun _ => None)) "config.yml" = Some c /\
    ["source_repo"] = ["source_repo"] /\
    ["site"; "assets/media"] = [destination_folder (cm c); media_destination_folder (cm c)] /\
    (forall t r, In r (asset_records ["site"; "assets/media"] t) ->
       asset_dst r = [destination_folder (cm c); media_destination_folder (cm c)] ++ asset_src r).
Proof.
  assert (Hin : In (CopyAssets ["source_repo"] ["site"; "assets/media"])
                   (run_trace (sample_env None (fun _ => None)) "config.yml" empty_fs))
    by (vm_compute; find_in).
  split; [exact Hin|].
  exact (C7_media_target (sample_env None (fun _ => None)) "config.yml" empty_fs _ _ Hin).
Defined.

(* ------------------------------------------------------------------ *)
(** ** [os.makedirs(..., exist_ok=True)] *)

Lemma lookup_in f p k : lookup f p = Some k -> In (p, k) f.
Proof.
  unfold lookup. destruct (find _ f) as [[q k']|] eqn:Hf; [|discriminate].
  intros [= <-]. apply find_some in Hf as [Hin Heq]. simpl in Heq.
  apply path_eqb_eq in Heq as ->. exact Hin.
Qed.

Lemma isdir_exists f p : isdir f p = true -> exists_p f p = true.
Proof. unfold isdir, exists_p. destruct p; [auto|]. now destruct (lookup f _) as [[]|]. Qed.

(** in a well-formed file system the parent of a directory exists *)
Lemma wf_parent f p x :
  fs_wf f = true -> isdir f (p ++ [x]) = true -> exists_p f p = true.
Proof.
  intros Hwf Hd. apply isdir_exists.
  unfold isdir in Hd. destruct (p ++ [x]) eqn:Hp; [now destruct p|].
  destruct (lookup f (s :: l)) as [[]|] eqn:Hl; try discriminate.
  apply lookup_in in Hl. unfold fs_wf in Hwf. rewrite forallb_forall in Hwf.
  specialize (Hwf _ Hl). cbn [fst] in Hwf. rewrite <- Hp, removelast_last in Hwf. exact Hwf.
Qed.

Lemma isdir_set f p : p <> [] -> isdir (fs_set f p DirK) p = true.
Proof.
  intros Hp. destruct p as [|x q]; [contradiction|].
  unfold isdir, fs_set, lookup. cbn [find fst]. now rewrite path_eqb_refl.
Qed.

Lemma mkdir_exist_ok_isdir rp f f' :
  mkdir_exist_ok rp true f = inl f' -> isdir f' (rev rp) = true.
Proof.
  unfold mkdir_exist_ok, mkdir_r.
  destruct (exists_p f (rev rp)) eqn:He.
  - destruct (isdir f (rev rp)) eqn:Hd; simpl; [now intros [= <-] | discriminate].
  - destruct rp as [|x rh]; [discriminate|].
    destruct (isdir f (rev rh)); [|destruct (isdir f (rev (x :: rh))) eqn:Hd; simpl;
                                     [now intros [= <-] | discriminate]].
    intros [= <-]. apply isdir_set. simpl. intros Hr.
    apply app_eq_nil in Hr as [_ Hr]. discriminate Hr.
Qed.

Lemma mkdir_exist_ok_existing rp f :
  isdir f (rev rp) = true -> mkdir_exist_ok rp true f = inl f.
Proof.
  intros Hd. unfold mkdir_exist_ok, mkdir_r. rewrite (isdir_exists _ _ Hd), Hd. reflexivity.
Qed.

Lemma makedirs_r_cons2 x y r ok f :
  makedirs_r (x :: y :: r) ok f =
  match (if exists_p f (rev (y :: r)) then inl f
         else match makedirs_r (y :: r) ok f with
              | inl fs' => inl fs'
              | inr FileExistsError => inl f
              | inr e => inr e
              end) with
  | inr e => inr e
  | inl fs1 => mkdir_exist_ok (x :: y :: r) ok fs1
  end.
Proof. reflexivity. Qed.

(** whatever [os.makedirs(p, exist_ok=True)] returns has [p] as a directory *)
Lemma makedirs_isdir p f f' : makedirs p true f = inl f' -> isdir f' p = true.
Proof.
  unfold makedirs. rewrite <- (rev_involutive p) at 2.
  destruct (rev p) as [|x [|y r]].
  - apply mkdir_exist_ok_isdir.
  - apply mkdir_exist_ok_isdir.
  - rewrite makedirs_r_cons2.
    destruct (exists_p f (rev (y :: r))); [apply mkdir_exist_ok_isdir|].
    destruct (makedirs_r (y :: r) true f) as [f1|[]]; try discriminate;
      apply mkdir_exist_ok_isdir.
Qed.

(** a directory already there makes [os.makedirs(p, exist_ok=True)] a no-op *)
Lemma makedirs_existing p f :
  fs_wf f = true -> isdir f p = true -> makedirs p true f = inl f.
Proof.
  intros Hwf Hd. unfold makedirs. rewrite <- (rev_involutive p) in Hd.
  destruct (rev p) as [|x [|y r]].
  - now apply mkdir_exist_ok_existing.
  - now apply mkdir_exist_ok_existing.
  - rewrite makedirs_r_cons2.
    assert (He : exists_p f (rev (y :: r)) = true).
    { apply (wf_parent f _ x Hwf). exact Hd. }
    rewrite He. now apply mkdir_exist_ok_existing.
Qed.

(** ** C10 *)

(** C10: before converting a subpage the loop calls
    [os.makedirs(dest_dir, exist_ok=True)]: on a well-formed file
    system a [dest_dir] already present as a directory leaves it
    unchanged and raises nothing; when it returns, [dest_dir] is a
    directory of the file system [convert_file] is then called on; when
    it raises, [convert_file] is not called. *)
Theorem C10_makedirs_before_convert (E : env) (sdir : path) (ddir : string) (d : path)
    (file : string) (st : state) :
  fs_wf (fs st) = true ->
  let dd := subpage_dest_dir ddir (d ++ [file]) in
  (isdir (fs st) dd = true -> makedirs dd true (fs st) = inl (fs st)) /\
  match makedirs dd true (fs st) with
  | inl f' =>
      isdir f' dd = true /\
      subpage_step E sdir ddir d file st =
        convert_file_m E (sdir ++ d ++ [file]) (dd ++ ["index.md"]) ["source_repo"]
          {| fs := f'; trace := trace st ++ [MakeDirs dd] |}
  | inr _ =>
      subpage_step E sdir ddir d file st =
        (None, {| fs := fs st; trace := trace st ++ [MakeDirs dd] |})
  end.
Proof.
  intros Hwf dd. split; [now apply makedirs_existing|].
  subst dd.
  unfold subpage_step, makedirs_m, bind, emit, get_fs, set_fs, raise.
  cbv beta iota zeta. cbn [fs trace].
  destruct (makedirs (subpage_dest_dir ddir (d ++ [file])) true (fs st)) as [f'|e] eqn:Hm.
  - split; [now apply makedirs_isdir in Hm | reflexivity].
  - reflexivity.
Qed.

Definition c10_fs : fsys := [(["site"; "a"], DirK); (["site"], DirK)].

Lemma C10_makedirs_before_convert_witness :
  fs_wf c10_fs = true /\
  makedirs ["site"; "a"] true c10_fs = inl c10_fs /\
  subpage_step (sample_env (Some "docs") (fun _ => None)) ["source_repo"; "docs"] "site" [] "a.md"
    {| fs := c10_fs; trace := [] |} =
  convert_file_m (sample_env (Some "docs") (fun _ => None))
    (["source_repo"; "docs"] ++ [] ++ ["a.md"]) (["site"; "a"] ++ ["index.md"]) ["source_repo"]
    {| fs := c10_fs; trace := [MakeDirs ["site"; "a"]] |}.
Proof.
  assert (Hwf : fs_wf c10_fs = true) by reflexivity.
  pose proof (C10_makedirs_before_convert (sample_env (Some "docs") (fun _ => None))
                ["source_repo"; "docs"] "site" [] "a.md" {| fs := c10_fs; trace := [] |} Hwf)
    as [H1 H2].
  cbv zeta in H1, H2.
  assert (Hm : makedirs ["site"; "a"] true c10_fs = inl c10_fs) by (apply H1; reflexivity).
  split; [exact Hwf|]. split; [exact Hm|].
  change (subpage_dest_dir "site" ([] ++ ["a.md"])) with ["site"; "a"] in H2.
  simpl fs in H2. rewrite Hm in H2. exact (proj2 H2).
Defined.

(* ================================================================== *)
(** * Further properties of the code *)

(* ------------------------------------------------------------------ *)
(** ** [os.makedirs(..., exist_ok=True)] on the destination tree *)

Lemma lookup_set f p k q :
  lookup (fs_set f p k) q = if path_eqb p q then Some k else lookup f q.
Proof. unfold lookup, fs_set. cbn [find fst]. now destruct (path_eqb p q). Qed.

Lemma path_eqb_sym p q : path_eqb p q = path_eqb q p.
Proof.
  revert q; induction p as [|x p IH]; intros [|y q]; simpl; auto.
  now rewrite String.eqb_sym, IH.
Qed.

(** a recorded path lies in a directory *)
Lemma wf_parent_dir f p k :
  fs_wf f = true -> lookup f p = Some k -> isdir f (removelast p) = true.
Proof.
  intros Hwf Hl. apply lookup_in in Hl. unfold fs_wf in Hwf.
  rewrite forallb_forall in Hwf. exact (Hwf _ Hl).
Qed.

Lemma isdir_set_mono f p q : isdir f q = true -> isdir (fs_set f p DirK) q = true.
Proof.
  unfold isdir. destruct q as [|y q]; [auto|]. rewrite lookup_set.
  now destruct (path_eqb p (y :: q)).
Qed.

Lemma wf_set_dir f p :
  fs_wf f = true -> isdir f (removelast p) = true -> fs_wf (fs_set f p DirK) = true.
Proof.
  intros Hwf Hp. unfold fs_wf in *. simpl. apply andb_true_intro. split.
  - now apply isdir_set_mono.
  - rewrite forallb_forall in *. intros e He. apply isdir_set_mono. now apply Hwf.
Qed.

Lemma mkdir_exist_ok_props rp f f' :
  mkdir_exist_ok rp true f = inl f' ->
  (forall q k, lookup f q = Some k -> lookup f' q = Some k) /\
  (fs_wf f = true -> fs_wf f' = true).
Proof.
  unfold mkdir_exist_ok, mkdir_r.
  destruct (exists_p f (rev rp)) eqn:He.
  - destruct (isdir f (rev rp)); simpl; [intros [= <-]; now split | discriminate].
  - destruct rp as [|x rh]; [discriminate|].
    destruct (isdir f (rev rh)) eqn:Hd;
      [| destruct (isdir f (rev (x :: rh))); simpl; [intros [= <-]; now split | discriminate]].
    intros [= <-]. split.
    + intros q k Hq. rewrite lookup_set. simpl rev in *.
      destruct (path_eqb (rev rh ++ [x]) q) eqn:Hpq; [|exact Hq].
      apply path_eqb_eq in Hpq. subst q.
      unfold exists_p in He.
      destruct (rev rh ++ [x]) eqn:Hr; [now apply app_eq_nil in Hr as [_ ?]|].
      now rewrite Hq in He.
    + intros Hwf. apply wf_set_dir; [exact Hwf|].
      simpl rev. now rewrite removelast_last.
Qed.

Lemma makedirs_r_props rp f f' :
  makedirs_r rp true f = inl f' ->
  (forall q k, lookup f q = Some k -> lookup f' q = Some k) /\
  (fs_wf f = true -> fs_wf f' = true).
Proof.
  revert f f'. induction rp as [|x rp IH]; intros f f'.
  - apply mkdir_exist_ok_props.
  - destruct rp as [|y r]; [apply mkdir_exist_ok_props|].
    rewrite makedirs_r_cons2.
    destruct (exists_p f (rev (y :: r))); [apply mkdir_exist_ok_props|].
    destruct (makedirs_r (y :: r) true f) as [f1|[]] eqn:Hm;
      try discriminate; [|apply mkdir_exist_ok_props].
    intros H. destruct (IH _ _ Hm) as [P1 W1].
    destruct (mkdir_exist_ok_props _ _ _ H) as [P2 W2].
    split; [intros q k Hq; now apply P2, P1 | intros Hw; now apply W2, W1].
Qed.

Lemma wf_isdir_prefix f q r :
  fs_wf f = true -> isdir f (q ++ r) = true -> isdir f q = true.
Proof.
  intros Hwf. induction r as [|x r IH] using rev_ind; [now rewrite app_nil_r|].
  intros Hd. apply IH. rewrite app_assoc in Hd.
  unfold isdir in Hd. destruct ((q ++ r) ++ [x]) eqn:Hp; [now destruct (q ++ r)|].
  destruct (lookup f (s :: l)) as [[]|] eqn:Hl; try discriminate.
  apply (wf_parent_dir f) in Hl; [|exact Hwf]. now rewrite <- Hp, removelast_last in Hl.
Qed.

(** X: when [os.makedirs(p, exist_ok=True)] returns on a well-formed
    destination tree, the tree stays well formed, [p] and every
    ancestor of [p] are directories, and every path that existed keeps
    its kind: nothing is overwritten. *)
Theorem makedirs_ok_spec (p : path) (f f' : fsys) :
  fs_wf f = true -> makedirs p true f = inl f' ->
  fs_wf f' = true /\
  (forall q r, p = q ++ r -> isdir f' q = true) /\
  (forall q k, lookup f q = Some k -> lookup f' q = Some k).
Proof.
  intros Hwf Hm. destruct (makedirs_r_props _ _ _ Hm) as [P W].
  pose proof (makedirs_isdir _ _ _ Hm) as Hd.
  split; [now apply W|]. split; [|exact P].
  intros q r ->. apply (wf_isdir_prefix f' q r); [now apply W | exact Hd].
Qed.

Lemma makedirs_ok_spec_witness :
  fs_wf [(["site"], DirK)] = true /\
  makedirs ["site"; "a"; "b"] true [(["site"], DirK)] =
    inl [(["site"; "a"; "b"], DirK); (["site"; "a"], DirK); (["site"], DirK)] /\
  isdir [(["site"; "a"; "b"], DirK); (["site"; "a"], DirK); (["site"], DirK)] ["site"; "a"] = true.
Proof.
  assert (Hw : fs_wf [(["site"], DirK)] = true) by reflexivity.
  assert (Hm : makedirs ["site"; "a"; "b"] true [(["site"], DirK)] =
                 inl [(["site"; "a"; "b"], DirK); (["site"; "a"], DirK); (["site"], DirK)])
    by reflexivity.
  split; [exact Hw|]. split; [exact Hm|].
  exact (proj1 (proj2 (makedirs_ok_spec _ _ _ Hw Hm)) ["site"; "a"] ["b"] eq_refl).
Defined.

(** X: [os.makedirs(p, exist_ok=True)] raises when [p] already exists
    as a regular file: [exist_ok] only forgives an existing directory. *)
Theorem makedirs_file_raises (p : path) (f : fsys) :
  p <> [] -> fs_wf f = true -> lookup f p = Some FileK ->
  exists e, makedirs p true f = inr e.
Proof.
  intros Hp Hwf Hl. unfold makedirs.
  assert (Hex : exists_p f p = true) by (destruct p; [contradiction | simpl; now rewrite Hl]).
  assert (Hnd : isdir f p = false) by (destruct p; [contradiction | simpl; now rewrite Hl]).
  assert (Htail : forall f1, f1 = f -> exists e, mkdir_exist_ok (rev p) true f1 = inr e).
  { intros f1 ->. unfold mkdir_exist_ok, mkdir_r. rewrite rev_involutive, Hex, Hnd.
    now exists FileExistsError. }
  destruct (rev p) as [|x [|y r]] eqn:Hr.
  - now apply (f_equal (@rev string)) in Hr; rewrite rev_involutive in Hr.
  - now apply Htail.
  - rewrite makedirs_r_cons2.
    assert (He : exists_p f (rev (y :: r)) = true).
    { apply isdir_exists. pose proof (wf_parent_dir f p FileK Hwf Hl) as Hd.
      rewrite <- (rev_involutive p), Hr in Hd. simpl rev in Hd.
      now rewrite removelast_last in Hd. }
    rewrite He. now apply Htail.
Qed.

Lemma makedirs_file_raises_witness :
  ["site"; "a"] <> [] /\ fs_wf [(["site"; "a"], FileK); (["site"], DirK)] = true /\
  lookup [(["site"; "a"], FileK); (["site"], DirK)] ["site"; "a"] = Some FileK /\
  exists e, makedirs ["site"; "a"] true [(["site"; "a"], FileK); (["site"], DirK)] = inr e.
Proof.
  assert (Hw : fs_wf [(["site"; "a"], FileK); (["site"], DirK)] = true) by reflexivity.
  assert (Hl : lookup [(["site"; "a"], FileK); (["site"], DirK)] ["site"; "a"] = Some FileK)
    by reflexivity.
  assert (Hp : ["site"; "a"] <> []) by discriminate.
  split; [exact Hp|]. split; [exact Hw|]. split; [exact Hl|].
  exact (makedirs_file_raises _ _ Hp Hw Hl).
Defined.

(* ------------------------------------------------------------------ *)
(** ** What a run converts *)

(** induction over trees through the subdirectory list *)
Fixpoint tree_ind2 (P : tree -> Prop)
    (H : forall fs ds, (forall n t, In (n, t) ds -> P t) -> P (Node fs ds)) (t : tree) : P t :=
  match t with
  | Node fs ds =>
      H fs ds
        ((fix go (l : list (string * tree)) : forall n t, In (n, t) l -> P t :=
            match l with
            | [] => fun n t Hin => False_ind _ Hin
            | (m, u) :: r => fun n t Hin =>
                match Hin with
                | or_introl e => eq_ind u P (tree_ind2 P H u) t (f_equal snd e)
                | or_intror H' => go r n t H'
                end
            end) ds)
  end.

(** every file [os.walk] lists is a file of the tree *)
Lemma walk_sound t :
  forall pre d fs, In (d, fs) (walk pre t) ->
  exists r, d = pre ++ r /\ forall f, In f fs -> in_tree r f t.
Proof.
  induction t as [fs ds IH] using tree_ind2. intros pre d fs' H.
  simpl in H. destruct H as [H|H].
  - injection H as <- <-. exists []. split; [now rewrite app_nil_r|].
    intros f Hf. now constructor.
  - apply in_flat_map in H as [[n t'] [Hin Hw]].
    destruct (IH n t' Hin (pre ++ [n]) d fs' Hw) as [r [-> Hr]].
    exists (n :: r). split; [now rewrite <- app_assoc|].
    intros f Hf. eapply in_sub; [exact Hin | now apply Hr].
Qed.

Section Sound.

Variable E : env.

Lemma emits_subpage_step_P (P : event -> Prop) sdir ddir d f :
  Forall P (step_events sdir ddir d f) -> emits_only P (subpage_step E sdir ddir d f).
Proof.
  intros HP. inversion HP as [|? ? H1 HP2]; subst. inversion HP2 as [|? ? H2 _]; subst.
  unfold subpage_step, makedirs_m, convert_file_m.
  emits_step; apply emits_emit; assumption.
Qed.

Lemma emits_files_loop_P (P : event -> Prop) sdir ddir d files :
  (forall f, In f files -> PyStr.endswith ".md" f = true -> Forall P (step_events sdir ddir d f)) ->
  emits_only P (files_loop E sdir ddir d files).
Proof.
  induction files as [|x xs IH]; intros Hf; simpl; [apply emits_ret|].
  apply emits_bind; [|intros; apply IH; intros; apply Hf; auto; now right].
  destruct (PyStr.endswith ".md" x) eqn:Hx; [|apply emits_ret].
  apply emits_subpage_step_P. apply Hf; [now left | exact Hx].
Qed.

Lemma emits_walk_loop_P (P : event -> Prop) sdir ddir w :
  (forall d fs f, In (d, fs) w -> In f fs -> PyStr.endswith ".md" f = true ->
                  Forall P (step_events sdir ddir d f)) ->
  emits_only P (walk_loop E sdir ddir w).
Proof.
  induction w as [|[d files] r IH]; intros Hw; simpl; [apply emits_ret|].
  apply emits_bind; [|intros; apply IH; intros; eapply Hw; eauto; now right].
  apply emits_files_loop_P. intros f Hf Hmd. eapply Hw; [now left | exact Hf | exact Hmd].
Qed.

(** [f] in the directory [d] of the configured, existing subpages
    folder [sub], with the [.md] suffix *)
Definition subpage_file (c : config) (sub : string) (d : path) (f : string) : Prop :=
  exists t, subpages_folder (cm c) = Some sub /\ subpages_enabled (Some sub) = true /\
    source_at E ("source_repo/" ++ sub)%string = Some (SrcDir t) /\
    in_tree d f t /\ PyStr.endswith ".md" f = true.

Definition sound_event (c : config) (e : event) : Prop :=
  match e with
  | MakeDirs p =>
      exists sub d f, subpage_file c sub d f /\ p = subpage_dest_dir (destination_folder (cm c)) (d ++ [f])
  | Convert s dst b =>
      exists sub d f, subpage_file c sub d f /\ s = ["source_repo"; sub] ++ d ++ [f] /\
        dst = subpage_dest_path (destination_folder (cm c)) (d ++ [f]) /\ b = ["source_repo"]
  | _ => False
  end.

Lemma emits_convert_subpages_sound c : emits_only (sound_event c) (convert_subpages E c).
Proof.
  unfold convert_subpages.
  destruct (subpages_folder (cm c)) as [sub|] eqn:Hs; [|apply emits_ret].
  destruct (subpages_enabled (Some sub)) eqn:He; [|apply emits_ret].
  destruct (source_at E _) as [[|t]|] eqn:Ht; [apply emits_ret| |apply emits_ret].
  apply emits_walk_loop_P. intros d fs f Hw Hf Hmd.
  destruct (walk_sound t [] d fs Hw) as [r [Hd Hr]]. simpl in Hd. subst r.
  assert (Hfile : subpage_file c sub d f) by (exists t; repeat split; auto).
  constructor; [|constructor; [|constructor]].
  - exists sub, d, f. split; [exact Hfile | reflexivity].
  - exists sub, d, f. split; [exact Hfile|]. repeat split.
Qed.

End Sound.

(** the shape of a run, with what the subpage loop may emit chosen by
    the caller *)
Lemma run_shape_gen (P : config -> event -> Prop) E file f0 :
  (forall c, emits_only (P c) (convert_subpages E c)) ->
  match load_config E file with
  | None => run_trace E file f0 = [LoadConfig file]
  | Some c => exists ext, Forall (P c) ext /\ is_prefix (run_trace E file f0) (shape file c ext)
  end.
Proof.
  intros HP.
  unfold run_trace, run, generate, load_config_m, fetch_m, create_structure_m,
    convert_file_m, copy_assets_m, bind, emit, get_fs, set_fs, ret, raise.
  simpl. destruct (load_config E file) as [c|] eqn:Hl; [|reflexivity].
  simpl.
  destruct (HP c {| fs := f0; trace := [] |}) as [ext0 [_ F0]].
  destruct (fetch E (source_repository c)); simpl;
    [| exists ext0; split; auto; eexists; reflexivity].
  destruct (create_structure E _ c f0) as [f1|]; simpl;
    [| exists ext0; split; auto; eexists; reflexivity].
  destruct (convert_file E _ _ _ f1) as [f2|]; simpl;
    [| exists ext0; split; auto; eexists; reflexivity].
  match goal with |- context [convert_subpages E c ?st] => set (st1 := st) end.
  destruct (HP c st1) as [ext [H1 F1]].
  exists ext. split; [exact F1|].
  destruct (convert_subpages E c st1) as [[u|] st2]; simpl in H1 |- *.
  - destruct (copy_assets E _ _ (fs st2)); simpl; rewrite H1.
    + eexists. unfold shape. simpl. rewrite <- !app_assoc. reflexivity.
    + exists [Echo "Website generated successfully!"]. unfold shape. simpl.
      rewrite <- !app_assoc. reflexivity.
  - rewrite H1.
    exists [CopyAssets ["source_repo"] (media_dst c); Echo "Website generated successfully!"].
    unfold shape. reflexivity.
Qed.

Lemma in_shape_cases file c ext e :
  In e (shape file c ext) ->
  e = LoadConfig file \/ e = Fetch (source_repository c) \/
  e = Print ("Destination folder: " ++ destination_folder (cm c))%string \/
  e = CreateStructure (destination_folder (cm c)) \/
  e = Convert (home_src c) (home_dst c) ["source_repo"] \/ In e ext \/
  e = CopyAssets ["source_repo"] (media_dst c) \/ e = Echo "Website generated successfully!".
Proof.
  unfold shape. intros H. apply in_app_or in H as [H|H].
  - simpl in H. intuition.
  - apply in_app_or in H as [H|H]; [intuition|]. simpl in H. intuition.
Qed.

Lemma in_run_trace_sound E file f0 e :
  In e (run_trace E file f0) ->
  e = LoadConfig file \/
  exists c, load_config E file = Some c /\
   (e = Fetch (source_repository c) \/
    e = Print ("Destination folder: " ++ destination_folder (cm c))%string \/
    e = CreateStructure (destination_folder (cm c)) \/
    e = Convert (home_src c) (home_dst c) ["source_repo"] \/ sound_event E c e \/
    e = CopyAssets ["source_repo"] (media_dst c) \/ e = Echo "Website generated successfully!").
Proof.
  intros Hin.
  pose proof (run_shape_gen (sound_event E) E file f0 (emits_convert_subpages_sound E)) as Hs.
  destruct (load_config E file) as [c|] eqn:Hl.
  - destruct Hs as [ext [Hf [rest Hp]]].
    assert (Hin' : In e (shape file c ext)) by (rewrite Hp; apply in_or_app; now left).
    apply in_shape_cases in Hin'.
    destruct Hin' as [H|H]; [now left|]. right. exists c. split; [reflexivity|].
    intuition. do 4 right. left. rewrite Forall_forall in Hf. now apply Hf.
  - rewrite Hs in Hin. destruct Hin as [H|[]]. now left.
Qed.

(** ** What generate converts *)

(** [generate] converts nothing but the home page and the [.md] files
    of the subpages tree: each [convert_file] call of a run is either
    the home page call, or the call for a file [f] of the directory [d]
    of the existing subpages folder [sub], with [f] ending in [.md],
    from [source_repo/<sub>/<d>/<f>] to the page of [d/f] in the
    destination folder; the base path is always [source_repo]. *)
Theorem generate_converts_sound E file f0 s dst b :
  In (Convert s dst b) (run_trace E file f0) ->
  exists c, load_config E file = Some c /\ b = ["source_repo"] /\
    ((s = home_src c /\ dst = home_dst c) \/
     exists sub d f, subpage_file E c sub d f /\ s = ["source_repo"; sub] ++ d ++ [f] /\
       dst = subpage_dest_path (destination_folder (cm c)) (d ++ [f])).
Proof.
  intros Hin. apply in_run_trace_sound in Hin as [H|[c [Hl H]]]; [discriminate|].
  exists c. split; [exact Hl|].
  destruct H as [H|[H|[H|[H|[H|[H|H]]]]]]; try discriminate.
  - injection H as -> -> ->. split; [reflexivity|]. left. now split.
  - destruct H as (sub & d & f & Hf & Hs & Hd & Hb). split; [exact Hb|].
    right. exists sub, d, f. now repeat split.
Qed.

Definition sound_tree : tree := Node ["a.md"; "b.txt"] [("x", Node ["c.md"] [])].

Lemma generate_converts_sound_witness :
  let E := sample_env (Some "docs") (one_dir "source_repo/docs" sound_tree) in
  In (Convert ["source_repo"; "docs"; "x"; "c.md"] ["site"; "x"; "c"; "index.md"] ["source_repo"])
     (run_trace E "config.yml" empty_fs) /\
  exists c, load_config E "config.yml" = Some c /\ ["source_repo"] = ["source_repo"] /\
    ((["source_repo"; "docs"; "x"; "c.md"] = home_src c /\ ["site"; "x"; "c"; "index.md"] = home_dst c) \/
     exists sub d f, subpage_file E c sub d f /\
       ["source_repo"; "docs"; "x"; "c.md"] = ["source_repo"; sub] ++ d ++ [f] /\
       ["site"; "x"; "c"; "index.md"] = subpage_dest_path (destination_folder (cm c)) (d ++ [f])).
Proof.
  intros E.
  assert (Hin : In (Convert ["source_repo"; "docs"; "x"; "c.md"] ["site"; "x"; "c"; "index.md"]
                            ["source_repo"]) (run_trace E "config.yml" empty_fs))
    by (vm_compute; find_in).
  split; [exact Hin|]. exact (generate_converts_sound E "config.yml" empty_fs _ _ _ Hin).
Defined.

(** every directory [generate] creates with [os.makedirs] is the page
    folder [<dest>/<d>/<stem of f>] of a [.md] file [f] of the directory
    [d] of the existing subpages folder *)
Theorem generate_makedirs_sound E file f0 p :
  In (MakeDirs p) (run_trace E file f0) ->
  exists c sub d f, load_config E file = Some c /\ subpage_file E c sub d f /\
    p = subpage_dest_dir (destination_folder (cm c)) (d ++ [f]).
Proof.
  intros Hin. apply in_run_trace_sound in Hin as [H|[c [Hl H]]]; [discriminate|].
  destruct H as [H|[H|[H|[H|[H|[H|H]]]]]]; try discriminate.
  destruct H as (sub & d & f & Hf & Hp). now exists c, sub, d, f.
Qed.

Lemma generate_makedirs_sound_witness :
  let E := sample_env (Some "docs") (one_dir "source_repo/docs" sound_tree) in
  In (MakeDirs ["site"; "x"; "c"]) (run_trace E "config.yml" empty_fs) /\
  exists c sub d f, load_config E "config.yml" = Some c /\ subpage_file E c sub d f /\
    ["site"; "x"; "c"] = subpage_dest_dir (destination_folder (cm c)) (d ++ [f]).
Proof.
  intros E.
  assert (Hin : In (MakeDirs ["site"; "x"; "c"]) (run_trace E "config.yml" empty_fs))
    by (vm_compute; find_in).
  split; [exact Hin|]. exact (generate_makedirs_sound E "config.yml" empty_fs _ Hin).
Defined.

(** ** The success message *)

Lemma no_echo_sub E c ext :
  Forall (sound_event E c) ext -> ~ In (Echo "Website generated successfully!") ext.
Proof. intros Hf Hin. rewrite Forall_forall in Hf. exact (Hf _ Hin). Qed.

Ltac no_echo :=
  repeat match goal with
  | H : In _ ?ext, Hf : Forall _ ?ext |- _ => exfalso; exact (no_echo_sub _ _ _ Hf H)
  | H : In _ (_ ++ _) |- _ => apply in_app_or in H; destruct H as [H|H]
  | H : In _ (_ :: _) |- _ => destruct H as [H|H]; [discriminate|]
  | H : In _ [] |- _ => destruct H
  end.

(** ["Website generated successfully!"] is echoed exactly by the runs
    that complete: a run in which any step raises never prints it. *)
Theorem generate_success_message E file f0 :
  In (Echo "Website generated successfully!") (run_trace E file f0) <-> run_ok E file f0 = true.
Proof.
  split.
  - destruct (run_ok E file f0) eqn:Hok; [reflexivity|]. revert Hok.
    unfold run_ok, run_trace, run, generate, load_config_m, fetch_m,
      create_structure_m, convert_file_m, copy_assets_m, bind, emit, get_fs, set_fs, ret, raise.
    simpl. destruct (load_config E file) as [c|]; simpl; [|intros _ [H|[]]; discriminate].
    destruct (fetch E (source_repository c)); simpl; [|intros _ H; simpl in H; intuition discriminate].
    destruct (create_structure E _ c f0) as [f1|]; simpl;
      [|intros _ H; simpl in H; intuition discriminate].
    destruct (convert_file E _ _ _ f1) as [f2|]; simpl;
      [|intros _ H; simpl in H; intuition discriminate].
    match goal with |- context [convert_subpages E c ?st] => set (st1 := st) end.
    destruct (emits_convert_subpages_sound E c st1) as [ext [Ht Hf]].
    destruct (convert_subpages E c st1) as [[[]|] st2]; simpl in Ht |- *.
    + destruct (copy_assets E _ _ (fs st2)); simpl; [discriminate|].
      intros _ H. rewrite Ht in H. no_echo.
    + intros _ H. rewrite Ht in H. no_echo.
  - intros Hok.
    destruct (load_config E file) as [c|] eqn:Hl.
    + destruct (run_ok_shape E file f0 c Hl Hok) as (st & st' & _ & _ & Hr).
      rewrite Hr. apply in_or_app. right. right. now left.
    + revert Hok. unfold run_ok, run, generate, load_config_m, bind, emit, raise.
      simpl. now rewrite Hl.
Qed.

(** ** A subpages path that is a file *)

(** when [source_repo/<subpages_folder>] exists but is a regular file,
    [os.walk] yields nothing: no page is made from it, and no error *)
Theorem generate_subpages_file E file f0 c sub :
  load_config E file = Some c -> subpages_folder (cm c) = Some sub ->
  source_at E ("source_repo/" ++ sub)%string = Some SrcFile ->
  (forall st, convert_subpages E c st = (Some tt, st)) /\
  is_prefix (run_trace E file f0) (shape file c []).
Proof.
  intros Hl Hs Hf.
  assert (Hskip : forall st, convert_subpages E c st = (Some tt, st)).
  { intros st. unfold convert_subpages. rewrite Hs.
    destruct (subpages_enabled (Some sub)); [|reflexivity]. now rewrite Hf. }
  split; [exact Hskip|]. exact (run_shape_skip E file f0 c Hl Hskip).
Qed.

Lemma generate_subpages_file_witness :
  let E := sample_env (Some "docs") (fun s => if String.eqb s "source_repo/docs" then Some SrcFile else None) in
  (forall st, convert_subpages E (sample_config (Some "docs")) st = (Some tt, st)) /\
  is_prefix (run_trace E "config.yml" empty_fs) (shape "config.yml" (sample_config (Some "docs")) []).
Proof.
  intros E. apply (generate_subpages_file E "config.yml" empty_fs (sample_config (Some "docs")) "docs");
    reflexivity.
Defined.

(** ** Failing steps stop the run *)

(** when the home page conversion raises, the run fails and stops
    there: its trace ends with that conversion, so the subpages loop,
    the asset copy and the message are never reached *)
Theorem generate_home_failure E file f0 c f1 :
  load_config E file = Some c -> fetch E (source_repository c) = true ->
  create_structure E (destination_folder (cm c)) c f0 = Some f1 ->
  convert_file E (home_src c) (home_dst c) ["source_repo"] f1 = None ->
  fst (run E file f0) = None /\
  run_trace E file f0 =
    [LoadConfig file; Fetch (source_repository c);
     Print ("Destination folder: " ++ destination_folder (cm c))%string;
     CreateStructure (destination_folder (cm c));
     Convert (home_src c) (home_dst c) ["source_repo"]].
Proof.
  intros Hl Hf Hc Hh. unfold run_trace.
  unfold run, generate, load_config_m, fetch_m, create_structure_m, convert_file_m,
    bind, emit, get_fs, set_fs, ret, raise.
  simpl. rewrite Hl. simpl. rewrite Hf. simpl. rewrite Hc. simpl. rewrite Hh. split; reflexivity.
Qed.

Lemma generate_home_failure_witness :
  let E := {| load_config := fun _ => Some (sample_config None);
              fetch := fun _ => true;
              source_at := fun _ => None;
              create_structure := fun d _ f => Some (fs_set f [d] DirK);
              convert_file := fun _ _ _ _ => None;
              copy_assets := fun _ _ f => Some f |} in
  fst (run E "config.yml" empty_fs) = None /\
  run_trace E "config.yml" empty_fs =
    [LoadConfig "config.yml"; Fetch (source_repository (sample_config None));
     Print ("Destination folder: " ++ "site")%string;
     CreateStructure "site";
     Convert (home_src (sample_config None)) (home_dst (sample_config None)) ["source_repo"]].
Proof.
  intros E. apply (generate_home_failure E "config.yml" empty_fs (sample_config None) [(["site"], DirK)]);
    reflexivity.
Defined.

(* ------------------------------------------------------------------ *)
(** ** The pages URL [setup] proposes *)

Module SetupFacts.
Import Setup.

(** the number of occurrences of a character in a string *)
Fixpoint count_char (c : ascii) (s : string) : nat :=
  match s with
  | EmptyString => 0
  | String a r => (if Ascii.eqb a c then 1 else 0) + count_char c r
  end.

Lemma py_split_length sep s : length (py_split sep s) = S (count_char sep s).
Proof.
  induction s as [|a r IH]; [reflexivity|]. simpl.
  destruct (py_split sep r) as [|h t] eqn:Hs; [discriminate|].
  rewrite Ascii.eqb_sym. destruct (Ascii.eqb sep a); simpl in *; lia.
Qed.

Lemma py_split_nosep sep s : count_char sep s = 0 -> py_split sep s = [s].
Proof.
  induction s as [|a r IH]; [reflexivity|]. simpl.
  destruct (Ascii.eqb a sep); [discriminate|]. simpl. intros H. now rewrite IH.
Qed.

(** [(x + sep + y).split(sep) == x.split(sep) + y.split(sep)] *)
Lemma py_split_app sep x y :
  py_split sep (x ++ String sep y) = py_split sep x ++ py_split sep y.
Proof.
  induction x as [|a r IH]; simpl.
  - now rewrite Ascii.eqb_refl.
  - rewrite IH. destruct (Ascii.eqb a sep); [reflexivity|].
    destruct (py_split sep r) as [|h t] eqn:Hr; [|reflexivity].
    pose proof (py_split_length sep r) as Hl. rewrite Hr in Hl. discriminate.
Qed.

Lemma count_char_app c x y : count_char c (x ++ y) = count_char c x + count_char c y.
Proof. induction x as [|a r IH]; simpl; [reflexivity|]. rewrite IH. lia. Qed.

Lemma str_app_assoc (x y z : string) : ((x ++ y) ++ z)%string = (x ++ y ++ z)%string.
Proof. induction x as [|a r IH]; simpl; [reflexivity|]. now rewrite IH. Qed.

Lemma str_app_nil (x : string) : (x ++ "")%string = x.
Proof. induction x as [|a r IH]; simpl; [reflexivity|]. now rewrite IH. Qed.

Lemma endswith_app suf c : PyStr.endswith suf (c ++ suf) = true.
Proof.
  unfold PyStr.endswith. rewrite string_length_app, Nat.add_sub, substring_after.
  assert (Hs : String.substring 0 (String.length suf) suf = suf).
  { induction suf as [|a r IH]; simpl; [reflexivity|]. now rewrite IH. }
  rewrite Hs. apply andb_true_intro; split; [apply Nat.leb_le; lia | apply String.eqb_refl].
Qed.

Lemma drop_last4_git repo : drop_last4 (repo ++ ".git") = repo.
Proof.
  unfold drop_last4. rewrite string_length_app.
  change (String.length ".git") with 4. rewrite Nat.add_sub. apply substring_prefix.
Qed.

Lemma index_neg_1 l x : index_neg (l ++ [x]) 1 = Some x.
Proof.
  unfold index_neg. rewrite length_app. cbn [length].
  rewrite (proj2 (Nat.leb_le _ _)) by lia.
  replace (length l + 1 - 1) with (length l) by lia.
  rewrite nth_error_app2, Nat.sub_diag by lia. reflexivity.
Qed.

Lemma index_neg_2 l x y : index_neg (l ++ [x; y]) 2 = Some x.
Proof.
  unfold index_neg. rewrite length_app. cbn [length].
  rewrite (proj2 (Nat.leb_le _ _)) by lia.
  replace (length l + 2 - 2) with (length l) by lia.
  rewrite nth_error_app2, Nat.sub_diag by lia. reflexivity.
Qed.

Lemma index_neg_last l : l <> [] -> index_neg l 1 = Some (last l "").
Proof.
  intros Hl. destruct (exists_last Hl) as (l' & x & ->).
  rewrite index_neg_1, last_last. reflexivity.
Qed.

End SetupFacts.

Lemma py_split_nonempty sep s : Setup.py_split sep s <> [].
Proof. intros H. pose proof (SetupFacts.py_split_length sep s) as Hl. rewrite H in Hl. discriminate. Qed.

(** [setup] derives the proposed GitHub Pages URL of a repository URL
    ending in [<seg>/<repo>.git] (with [seg] and [repo] free of ['/'],
    at the start of the URL or after a ['/']) as
    [https://<user>.github.io/<repo>/], the user being what follows the
    last [':'] of [seg] (all of [seg] when it has no [':']) *)
Theorem pages_url_default_derived (pre seg repo : string) :
  (pre = "" \/ exists p, pre = (p ++ "/")%string) ->
  SetupFacts.count_char "/" seg = 0 -> SetupFacts.count_char "/" repo = 0 ->
  Setup.pages_url_default (pre ++ seg ++ "/" ++ repo ++ ".git") =
    Some ("https://" ++ last (Setup.py_split ":" seg) "" ++ ".github.io/" ++ repo ++ "/")%string.
Proof.
  intros Hpre Hseg Hrepo.
  assert (Hr : Setup.py_split "/" (repo ++ ".git") = [(repo ++ ".git")%string]).
  { apply SetupFacts.py_split_nosep. rewrite SetupFacts.count_char_app, Hrepo. reflexivity. }
  assert (Hs : exists L, Setup.py_split "/" (pre ++ seg ++ "/" ++ repo ++ ".git") =
                         L ++ [seg; (repo ++ ".git")%string]).
  { destruct Hpre as [-> | [p ->]].
    - exists []. simpl. change ("/" ++ repo ++ ".git")%string with (String "/" (repo ++ ".git")).
      rewrite SetupFacts.py_split_app, Hr, SetupFacts.py_split_nosep by exact Hseg. reflexivity.
    - exists (Setup.py_split "/" p). rewrite SetupFacts.str_app_assoc.
      change ("/" ++ seg ++ "/" ++ repo ++ ".git")%string
        with (String "/" (seg ++ String "/" (repo ++ ".git"))).
      rewrite !SetupFacts.py_split_app, Hr, (SetupFacts.py_split_nosep "/" seg Hseg). reflexivity. }
  destruct Hs as [L Hs].
  unfold Setup.pages_url_default.
  replace (pre ++ seg ++ "/" ++ repo ++ ".git")%string with ((pre ++ seg ++ "/" ++ repo) ++ ".git")%string
    by (now rewrite !SetupFacts.str_app_assoc).
  rewrite SetupFacts.endswith_app.
  rewrite !SetupFacts.str_app_assoc in *. rewrite Hs.
  replace (L ++ [seg; (repo ++ ".git")%string]) with ((L ++ [seg]) ++ [(repo ++ ".git")%string])
    by (now rewrite <- app_assoc).
  rewrite SetupFacts.index_neg_1, <- app_assoc. cbn [app]. rewrite SetupFacts.index_neg_2.
  rewrite SetupFacts.index_neg_last by apply py_split_nonempty.
  now rewrite SetupFacts.drop_last4_git.
Qed.

Lemma pages_url_default_derived_witness :
  ("" = "" \/ exists p, "" = (p ++ "/")%string) /\
  SetupFacts.count_char "/" "git@github.com:octo" = 0 /\ SetupFacts.count_char "/" "site" = 0 /\
  Setup.pages_url_default ("" ++ "git@github.com:octo" ++ "/" ++ "site" ++ ".git") =
    Some ("https://" ++ last (Setup.py_split ":" "git@github.com:octo") "" ++ ".github.io/" ++ "site" ++ "/")%string.
Proof.
  assert (H1 : "" = "" \/ exists p, "" = (p ++ "/")%string) by (left; reflexivity).
  assert (H2 : SetupFacts.count_char "/" "git@github.com:octo" = 0) by reflexivity.
  assert (H3 : SetupFacts.count_char "/" "site" = 0) by reflexivity.
  split; [exact H1|]. split; [exact H2|]. split; [exact H3|].
  exact (pages_url_default_derived "" "git@github.com:octo" "site" H1 H2 H3).
Defined.

(** the derivation raises [IndexError] exactly for the URLs that end in
    [.git] and hold no ['/'] *)
Theorem pages_url_default_index_error (url : string) :
  Setup.pages_url_default url = None <->
  PyStr.endswith ".git" url = true /\ SetupFacts.count_char "/" url = 0.
Proof.
  unfold Setup.pages_url_default.
  destruct (PyStr.endswith ".git" url); [|split; [discriminate | intros [H _]; discriminate]].
  rewrite SetupFacts.index_neg_last by apply py_split_nonempty.
  destruct (SetupFacts.count_char "/" url) as [|n] eqn:Hc.
  - unfold Setup.index_neg at 1. rewrite SetupFacts.py_split_length, Hc. simpl. tauto.
  - assert (Hi : exists seg, Setup.index_neg (Setup.py_split "/" url) 2 = Some seg).
    { unfold Setup.index_neg. rewrite SetupFacts.py_split_length, Hc.
      rewrite (proj2 (Nat.leb_le 2 (S (S n)))) by lia.
      destruct (nth_error _ _) as [seg|] eqn:Hn; [now exists seg|].
      apply nth_error_None in Hn. rewrite SetupFacts.py_split_length, Hc in Hn. lia. }
    destruct Hi as [seg ->].
    rewrite SetupFacts.index_neg_last by apply py_split_nonempty.
    split; [discriminate | intros [_ H]; discriminate].
Qed.

(** ** [themes] and the theme menu of [setup] *)

(** [themes] lists, after its heading, exactly the themes [setup]
    offers, in the same order *)
Theorem themes_match_setup :
  Setup.themes_lines = "Available themes:" :: map (fun t => ("- " ++ t)%string) Setup.available_themes.
Proof. reflexivity. Qed.

(** ** Runs of [setup] *)

Definition no_write (l : list Setup.sevent) : Prop := forall f d, ~ In (Setup.SWrite f d) l.

(** [l] ends with [sfx] *)
Definition ends {A} (l sfx : list A) : Prop := exists pre, l = pre ++ sfx.

Lemma ends_two {A} (l : list A) a b : ends ((l ++ [a]) ++ [b]) [a; b].
Proof. exists l. now rewrite <- app_assoc. Qed.

Ltac ends_tac := first [ eassumption | apply ends_two | eexists; reflexivity ].

Lemma no_write_app l1 l2 : no_write l1 -> no_write l2 -> no_write (l1 ++ l2).
Proof. intros H1 H2 f d Hin. apply in_app_or in Hin as [Hin|Hin]; [exact (H1 f d Hin) | exact (H2 f d Hin)]. Qed.

Lemma no_write_one e : (forall f d, e <> Setup.SWrite f d) -> no_write [e].
Proof. intros He f d [H|[]]. exact (He f d H). Qed.

Lemma no_write_nil : no_write [].
Proof. intros ? ? []. Qed.

Lemma no_write_cons e l : (forall f d, e <> Setup.SWrite f d) -> no_write l -> no_write (e :: l).
Proof. intros He Hl f d [H|H]; [exact (He f d H) | exact (Hl f d H)]. Qed.

Ltac nw := repeat first [ apply no_write_app | apply no_write_nil | assumption
                        | apply no_write_cons; [intros ? ? ?; discriminate|] ].

Lemma secho_step m st r st' :
  Setup.secho m st = (r, st') ->
  r = Some tt /\ st' = {| Setup.input := Setup.input st; Setup.out := Setup.out st ++ [Setup.SEcho m] |}.
Proof. intros [= <- <-]. split; reflexivity. Qed.

Lemma lift_step {A} e (o : option A) st r st' :
  Setup.lift e o st = (r, st') ->
  r = o /\
  st' = match o with
        | Some _ => st
        | None => {| Setup.input := Setup.input st; Setup.out := Setup.out st ++ [Setup.SRaise e] |}
        end.
Proof. destruct o; intros [= <- <-]; split; reflexivity. Qed.

Lemma prompt_step t d st r st' :
  Setup.prompt t d st = (r, st') ->
  match r with
  | Some v => exists l, Setup.input st = l :: Setup.input st' /\ v = (if String.eqb l "" then d else l) /\
                        Setup.out st' = Setup.out st ++ [Setup.SPrompt t]
  | None => Setup.input st = [] /\ Setup.input st' = [] /\
            Setup.out st' = Setup.out st ++ [Setup.SPrompt t; Setup.SRaise Setup.Abort]
  end.
Proof.
  unfold Setup.prompt. destruct (Setup.input st) as [|l rest] eqn:Hi; intros [= <- <-]; simpl.
  - rewrite <- app_assoc. auto.
  - now exists l.
Qed.

(** the answers an integer prompt consumes: rejected ones, then the
    accepted one *)
Lemma prompt_int_loop_step p t lo hi dflt inp o r st' :
  Setup.prompt_int_loop p t lo hi dflt inp o = (r, st') ->
  (exists ext, Setup.out st' = o ++ ext /\ no_write ext) /\
  match r with
  | Some n =>
      exists bad l, inp = bad ++ l :: Setup.input st' /\
        Forall (fun b => Setup.in_range lo hi (Setup.int_answer p dflt b) = false) bad /\
        Setup.int_answer p dflt l = Some n /\ (lo <= n <= hi)%Z
  | None => Setup.input st' = [] /\ ends (Setup.out st') [Setup.SPrompt t; Setup.SRaise Setup.Abort]
  end.
Proof.
  revert o; induction inp as [|l rest IH]; intros o H; simpl in H.
  - injection H as <- <-. split.
    + exists [Setup.SPrompt t; Setup.SRaise Setup.Abort]. split; [now rewrite <- app_assoc|]. nw.
    + split; [reflexivity|]. exists o. cbn. now rewrite <- app_assoc.
  - assert (Hrec : Setup.prompt_int_loop p t lo hi dflt rest
                     ((o ++ [Setup.SPrompt t]) ++ [Setup.SBadValue l]) = (r, st') ->
                   Setup.in_range lo hi (Setup.int_answer p dflt l) = false ->
                   (exists ext, Setup.out st' = o ++ ext /\ no_write ext) /\
                   match r with
                   | Some n =>
                       exists bad l', l :: rest = bad ++ l' :: Setup.input st' /\
                         Forall (fun b => Setup.in_range lo hi (Setup.int_answer p dflt b) = false) bad /\
                         Setup.int_answer p dflt l' = Some n /\ (lo <= n <= hi)%Z
                   | None => Setup.input st' = [] /\
                             ends (Setup.out st') [Setup.SPrompt t; Setup.SRaise Setup.Abort]
                   end).
    { intros H' Hl. apply IH in H' as [[ext [Ho Hn]] Hr]. split.
      - exists ([Setup.SPrompt t; Setup.SBadValue l] ++ ext). split.
        + rewrite Ho, <- !app_assoc. reflexivity.
        + nw.
      - destruct r as [n|]; [|exact Hr].
        destruct Hr as (bad & l' & -> & Hb & Hl' & Hn').
        exists (l :: bad), l'. split; [reflexivity|]. split; [now constructor|]. now split. }
    destruct (Setup.int_answer p dflt l) as [n|] eqn:Ha; [|exact (Hrec H eq_refl)].
    destruct (Z.leb lo n && Z.leb n hi) eqn:Hb; [|apply (Hrec H); simpl; exact Hb].
    injection H as <- <-. split.
    + exists [Setup.SPrompt t]. split; [reflexivity|]. nw.
    + exists [], l. split; [reflexivity|]. split; [constructor|]. split; [exact Ha|].
      apply andb_prop in Hb as [H1 H2]. apply Z.leb_le in H1, H2. lia.
Qed.

Lemma swrite_step co yd file d st r st' :
  Setup.swrite co yd file d st = (r, st') ->
  Setup.input st' = Setup.input st /\
  if co file then
    if yd d then r = Some tt /\ Setup.out st' = Setup.out st ++ [Setup.SOpen file; Setup.SWrite file d]
    else r = None /\ Setup.out st' = Setup.out st ++ [Setup.SOpen file; Setup.SRaise Setup.DumpError]
  else r = None /\ Setup.out st' = Setup.out st ++ [Setup.SRaise Setup.OSError].
Proof.
  unfold Setup.swrite. destruct (co file), (yd d); intros [= <- <-]; simpl;
    rewrite <- ?app_assoc; auto.
Qed.

Lemma in_range_13 n : Setup.in_range 1 13 (Some n) = true <-> (1 <= n <= 13)%Z.
Proof. simpl. rewrite andb_true_iff, !Z.leb_le. tauto. Qed.

Lemma theme_index (n : Z) :
  (1 <= n <= 13)%Z ->
  exists t, Setup.index_z Setup.available_themes (n - 1) = Some t /\
    nth_error Setup.available_themes (Z.to_nat n - 1) = Some t /\
    In (Setup.str_of_nat (Z.to_nat n) ++ ". " ++ t)%string Setup.theme_menu_lines /\
    In ("- " ++ t)%string Setup.themes_lines.
Proof.
  intros Hn.
  assert (Hc : (n = 1 \/ n = 2 \/ n = 3 \/ n = 4 \/ n = 5 \/ n = 6 \/ n = 7 \/ n = 8 \/
                n = 9 \/ n = 10 \/ n = 11 \/ n = 12 \/ n = 13)%Z) by lia.
  repeat destruct Hc as [Hc|Hc]; subst n; eexists;
    (split; [reflexivity | split; [reflexivity | split; vm_compute; find_in]]).
Qed.

(** the facts the equation of a step of a run of [setup] gives, taken
    in the order of the run (the state a step starts from is a record) *)
Ltac sfacts :=
  repeat match goal with
  | E : Setup.secho _ {| Setup.input := _; Setup.out := _ |} = (_, _) |- _ =>
      let R := fresh "R" in apply secho_step in E as [R E]; subst; cbn [Setup.input Setup.out] in *
  | E : Setup.lift _ _ {| Setup.input := _; Setup.out := _ |} = (_, _) |- _ =>
      let R := fresh "R" in
      apply lift_step in E as [R E];
      first [ rewrite <- R in E | idtac ]; cbv iota in E; subst; cbn [Setup.input Setup.out] in *
  | E : Setup.prompt _ _ {| Setup.input := _; Setup.out := _ |} = (?r, ?st) |- _ =>
      let i := fresh "i" in let o := fresh "o" in
      destruct st as [i o]; apply prompt_step in E; cbn [Setup.input Setup.out] in E;
      cbv iota in E;
      lazymatch type of E with
      | ex _ =>
          let l := fresh "l" in let Hi := fresh "Hi" in let Hv := fresh "Hv" in let Ho := fresh "Ho" in
          destruct E as (l & Hi & Hv & Ho)
      | _ =>
          let Hi := fresh "Hi" in let Hi' := fresh "Hi" in let Ho := fresh "Ho" in
          destruct E as (Hi & Hi' & Ho)
      end;
      subst; cbn [Setup.input Setup.out] in *
  | E : Setup.prompt_int _ _ _ _ _ {| Setup.input := _; Setup.out := _ |} = (?r, ?st) |- _ =>
      let i := fresh "i" in let o := fresh "o" in
      let ext := fresh "ext" in let Ho := fresh "Ho" in let Hn := fresh "Hn" in let Hr := fresh "Hr" in
      destruct st as [i o]; unfold Setup.prompt_int in E;
      apply prompt_int_loop_step in E as [[ext [Ho Hn]] Hr]; cbn [Setup.input Setup.out] in *;
      cbv iota in Hr;
      lazymatch type of Hr with
      | ex _ =>
          let bad := fresh "bad" in let l := fresh "l" in
          let Hi := fresh "Hi" in let Hb := fresh "Hb" in let Hl := fresh "Hl" in let Hz := fresh "Hz" in
          destruct Hr as (bad & l & Hi & Hb & Hl & Hz)
      | _ => let Hi := fresh "Hi" in let He := fresh "He" in destruct Hr as [Hi He]
      end;
      subst; cbn [Setup.input Setup.out] in *
  | E : Setup.swrite _ _ _ _ {| Setup.input := _; Setup.out := _ |} = (?r, ?st) |- _ =>
      let i := fresh "i" in let o := fresh "o" in let Hi := fresh "Hi" in
      destruct st as [i o]; apply swrite_step in E as [Hi E]; cbn [Setup.input Setup.out] in *;
      repeat lazymatch type of E with (if ?b then _ else _) => destruct b end;
      let R := fresh "R" in destruct E as [R E]; try discriminate R; subst
  end.

(** a [SWrite] found in the log of a run: its position *)
Ltac in_log Hin :=
  repeat rewrite in_app_iff in Hin; simpl in Hin;
  repeat match type of Hin with
         | _ \/ _ => destruct Hin as [Hin|Hin]
         end;
  try discriminate Hin; try contradiction;
  try match goal with
      | N : no_write ?l, H : In (Setup.SWrite _ _) ?l |- _ => exfalso; exact (N _ _ H)
      end.

Ltac sstep H :=
  match type of H with
  | context [match ?x with (_, _) => _ end] =>
      let o := fresh "o" in let s := fresh "s" in let E := fresh "E" in
      destruct x as [o s] eqn:E; destruct o; cbv beta iota in H
  end.

(** the theme [setup] stores is the one its menu prints for the number
    [n] that the integer prompt accepted: the answers are the title, the
    description, the rejected answers of the theme prompt, then the
    accepted one, read as [n] between 1 and 13 (an empty answer as the
    default 8); the theme is [available_themes[n - 1]], printed as
    [<n>. <theme>] in the menu and listed by [themes]; and [config.yml]
    is written only by a run that completes *)
Theorem setup_theme_choice parse_int can_open yaml_dump answers r st f d :
  Setup.run_setup parse_int can_open yaml_dump answers = (r, st) -> In (Setup.SWrite f d) (Setup.out st) ->
  r = Some tt /\ f = "config.yml" /\
  exists a1 a2 bad l rest n,
    answers = a1 :: a2 :: bad ++ l :: rest /\
    Forall (fun b => Setup.in_range 1 13 (Setup.int_answer parse_int 8 b) = false) bad /\
    Setup.int_answer parse_int 8 l = Some (Z.of_nat n) /\ (1 <= n <= 13)%nat /\
    nth_error Setup.available_themes (n - 1) = Some (Setup.theme (Setup.meta d)) /\
    In (Setup.str_of_nat n ++ ". " ++ Setup.theme (Setup.meta d))%string Setup.theme_menu_lines /\
    In ("- " ++ Setup.theme (Setup.meta d))%string Setup.themes_lines.
Proof.
  intros H Hin.
  unfold Setup.run_setup, Setup.setup, Setup.sbind in H. cbv beta in H.
  repeat sstep H.
  all: try (injection H as <- <-).
  all: sfacts.
  all: in_log Hin.
  injection Hin as <- <-. split; [reflexivity|]. split; [reflexivity|].
  change (Z.of_nat (length Setup.available_themes)) with 13%Z in Hz, Hb.
  destruct (theme_index z Hz) as (t & Ht & Hnth & Hmenu & Hlist).
  rewrite Ht in R2. injection R2 as ->. cbn [Setup.meta Setup.theme].
  do 5 eexists. exists (Z.to_nat z). split; [reflexivity|]. split; [exact Hb|].
  split; [rewrite Z2Nat.id by lia; exact Hl|]. split; [lia|]. auto.
Qed.

(** a decimal reading of answers, for the samples *)
Fixpoint dec_digits (s : string) (acc : Z) : option Z :=
  match s with
  | EmptyString => Some acc
  | String c r =>
      let n := nat_of_ascii c in
      if Nat.leb 48 n && Nat.leb n 57 then dec_digits r (acc * 10 + Z.of_nat (n - 48))%Z else None
  end.

Definition parse_dec (s : string) : option Z :=
  match s with EmptyString => None | _ => dec_digits s 0 end.

Definition setup_sample_answers : list string :=
  [""; ""; "x"; "42"; "3"; "git@github.com:octo/site.git"; ""; ""; ""; ""; ""; ""; ""].

Definition setup_sample_data : Setup.config_data := {|
  Setup.meta := {| Setup.title := "My Awesome Website";
                   Setup.description := "Website created with fonte.wiki and Divisor";
                   Setup.theme := "dinky";
                   Setup.github_repository_url := "git@github.com:octo/site.git";
                   Setup.github_pages_url := "https://octo.github.io/site/";
                   Setup.custom_domain := "<none>" |};
  Setup.source_repository := "https://github.com/fonte-wiki/Backup-fonte-wiki";
  Setup.mapping := {| Setup.home_page_source := "home.md"; Setup.subpages_folder := "<none>";
                      Setup.destination_folder := "site_contents";
                      Setup.media_destination_folder := "assets/media" |} |}.

Definition always (A : Type) (_ : A) : bool := true.

Lemma setup_theme_choice_witness :
  let rs := Setup.run_setup parse_dec (always _) (always _) setup_sample_answers in
  rs = (fst rs, snd rs) /\ In (Setup.SWrite "config.yml" setup_sample_data) (Setup.out (snd rs)) /\
  (fst rs = Some tt /\ "config.yml" = "config.yml" /\
   exists a1 a2 bad l rest n,
     setup_sample_answers = a1 :: a2 :: bad ++ l :: rest /\
     Forall (fun b => Setup.in_range 1 13 (Setup.int_answer parse_dec 8 b) = false) bad /\
     Setup.int_answer parse_dec 8 l = Some (Z.of_nat n) /\ (1 <= n <= 13)%nat /\
     nth_error Setup.available_themes (n - 1) = Some (Setup.theme (Setup.meta setup_sample_data)) /\
     In (Setup.str_of_nat n ++ ". " ++ Setup.theme (Setup.meta setup_sample_data))%string
        Setup.theme_menu_lines /\
     In ("- " ++ Setup.theme (Setup.meta setup_sample_data))%string Setup.themes_lines).
Proof.
  intros rs.
  assert (H1 : rs = (fst rs, snd rs)) by reflexivity.
  assert (H2 : In (Setup.SWrite "config.yml" setup_sample_data) (Setup.out (snd rs)))
    by (vm_compute; find_in).
  split; [exact H1|]. split; [exact H2|].
  exact (setup_theme_choice parse_dec (always _) (always _) setup_sample_answers
           (fst rs) (snd rs) _ _ H1 H2).
Defined.

(** when [setup] stops on an exception, no [yaml.dump] has completed,
    and the exception is one of:
    - [click.Abort]: the input ended at a prompt, which is the last
      thing the run printed;
    - the [IndexError] of the pages-URL derivation, raised right after
      the repository-URL prompt, for the answer [u] read there (after
      the title, the description and the answers of the theme prompt)
      when that URL ends in [.git] but has no [/]; the theme lookup,
      the only other indexing, never raises;
    - the failure of [open("config.yml", "w")];
    - the failure of [import yaml] or [yaml.dump] after [open] created
      or truncated [config.yml] *)
Theorem setup_abort parse_int can_open yaml_dump answers st :
  Setup.run_setup parse_int can_open yaml_dump answers = (None, st) ->
  no_write (Setup.out st) /\
  ((Setup.input st = [] /\ exists t, ends (Setup.out st) [Setup.SPrompt t; Setup.SRaise Setup.Abort]) \/
   (exists a1 a2 bad l u,
      answers = a1 :: a2 :: bad ++ l :: u :: Setup.input st /\
      Forall (fun b => Setup.in_range 1 13 (Setup.int_answer parse_int 8 b) = false) bad /\
      Setup.in_range 1 13 (Setup.int_answer parse_int 8 l) = true /\
      Setup.pages_url_default (if String.eqb u "" then Setup.default_repo_url else u) = None /\
      ends (Setup.out st) [Setup.SPrompt Setup.repo_url_prompt; Setup.SRaise Setup.IndexError]) \/
   (can_open "config.yml" = false /\ ends (Setup.out st) [Setup.SRaise Setup.OSError]) \/
   (can_open "config.yml" = true /\
    ends (Setup.out st) [Setup.SOpen "config.yml"; Setup.SRaise Setup.DumpError])).
Proof.
  intros H.
  unfold Setup.run_setup, Setup.setup, Setup.sbind in H. cbv beta in H.
  repeat sstep H.
  all: try (unfold Setup.secho in H; discriminate H).
  all: injection H as H; subst st.
  all: sfacts.
  all: try discriminate.
  all: cbn [Setup.input Setup.out].
  all: try (change (Z.of_nat (length Setup.available_themes)) with 13%Z in Hz, Hb).
  (* the theme lookup never fails *)
  all: try (match goal with R : None = Setup.index_z _ (?z - 1), Hz : (1 <= ?z <= 13)%Z |- _ =>
              exfalso; destruct (theme_index z Hz) as (t & Ht & _); rewrite Ht in R; discriminate R
            end).
  all: split; [nw|].
  all: first
    [ left; split; [reflexivity|]; eexists; ends_tac
    | right; left; do 5 eexists; split; [reflexivity|]; split; [eassumption|];
      split; [match goal with Hl : Setup.int_answer _ _ _ = Some _ |- _ =>
                rewrite Hl; apply in_range_13; assumption end|];
      split; [symmetry; assumption|]; ends_tac
    | right; right; left; split; [reflexivity|]; ends_tac
    | right; right; right; split; [reflexivity|]; ends_tac ].
Qed.

Definition setup_index_error_answers : list string := [""; ""; "3"; "site.git"].

Lemma setup_abort_witness :
  let st := snd (Setup.run_setup parse_dec (always _) (always _) setup_index_error_answers) in
  Setup.run_setup parse_dec (always _) (always _) setup_index_error_answers = (None, st) /\
  (no_write (Setup.out st) /\
   ((Setup.input st = [] /\ exists t, ends (Setup.out st) [Setup.SPrompt t; Setup.SRaise Setup.Abort]) \/
    (exists a1 a2 bad l u,
       setup_index_error_answers = a1 :: a2 :: bad ++ l :: u :: Setup.input st /\
       Forall (fun b => Setup.in_range 1 13 (Setup.int_answer parse_dec 8 b) = false) bad /\
       Setup.in_range 1 13 (Setup.int_answer parse_dec 8 l) = true /\
       Setup.pages_url_default (if String.eqb u "" then Setup.default_repo_url else u) = None /\
       ends (Setup.out st) [Setup.SPrompt Setup.repo_url_prompt; Setup.SRaise Setup.IndexError]) \/
    (always _ "config.yml" = false /\ ends (Setup.out st) [Setup.SRaise Setup.OSError]) \/
    (always _ "config.yml" = true /\
     ends (Setup.out st) [Setup.SOpen "config.yml"; Setup.SRaise Setup.DumpError]))).
Proof.
  intros st.
  assert (H : Setup.run_setup parse_dec (always _) (always _) setup_index_error_answers = (None, st))
    by reflexivity.
  split; [exact H|]. exact (setup_abort parse_dec (always _) (always _) _ _ H).
Defined.

(** the data [setup] writes when every prompt is answered with an empty
    line *)
Definition setup_default_data : Setup.config_data := {|
  Setup.meta := {| Setup.title := "My Awesome Website";
                   Setup.description := "Website created with fonte.wiki and Divisor";
                   Setup.theme := "minima";
                   Setup.github_repository_url := Setup.default_repo_url;
                   Setup.github_pages_url := "https://your-username.github.io/your-repo/";
                   Setup.custom_domain := "<none>" |};
  Setup.source_repository := "https://github.com/fonte-wiki/Backup-fonte-wiki";
  Setup.mapping := {| Setup.home_page_source := "home.md"; Setup.subpages_folder := "<none>";
                      Setup.destination_folder := "site_contents";
                      Setup.media_destination_folder := "assets/media" |} |}.

(** answering every prompt of [setup] with an empty line writes the
    defaults: the theme [minima] (answer 8), the pages URL derived from
    the default repository URL, and the subpages folder ["<none>"],
    which [generate] treats as no subpages folder; the run completes,
    and the dump is in the log, exactly when [open] and [yaml.dump]
    succeed *)
Theorem setup_defaults parse_int can_open yaml_dump rest :
  exists st d,
    Setup.run_setup parse_int can_open yaml_dump (repeat "" 11 ++ rest) =
      (if can_open "config.yml" && yaml_dump d then Some tt else None, st) /\
    Setup.input st = rest /\
    (In (Setup.SWrite "config.yml" d) (Setup.out st) <-> can_open "config.yml" && yaml_dump d = true) /\
    Setup.theme (Setup.meta d) = "minima" /\
    Setup.github_pages_url (Setup.meta d) = "https://your-username.github.io/your-repo/" /\
    Setup.subpages_folder (Setup.mapping d) = "<none>" /\
    subpages_enabled (Some (Setup.subpages_folder (Setup.mapping d))) = false /\
    Setup.destination_folder (Setup.mapping d) = "site_contents".
Proof.
  destruct (Setup.run_setup parse_int can_open yaml_dump (repeat "" 11 ++ rest)) as [r st] eqn:E.
  exists st, setup_default_data.
  destruct (can_open "config.yml") eqn:Ho; [destruct (yaml_dump setup_default_data) eqn:Hy|].
  all: cbv in E; try (cbv in Hy); rewrite ?Ho, ?Hy in E; injection E as <- <-.
  all: cbn [andb]; split; [reflexivity|]; split; [reflexivity|];
       split; [|repeat split; reflexivity].
  - split; [intros _; reflexivity | intros _; cbn; find_in].
  - split; [|discriminate]. intros Hin; cbn in Hin. in_log Hin.
  - split; [|discriminate]. intros Hin; cbn in Hin. in_log Hin.
Qed.


(* ------------------------------------------------------------------ *)
(** ** [clean] *)

Lemma lookup_filter (P : path -> bool) f q :
  lookup (filter (fun e => P (fst e)) f) q = if P q then lookup f q else None.
Proof.
  induction f as [|[p k] f IH]; simpl; [now destruct (P q)|].
  destruct (P p) eqn:Hp.
  - change (lookup ((p, k) :: filter (fun e => P (fst e)) f) q)
      with (lookup (fs_set (filter (fun e => P (fst e)) f) p k) q).
    change (lookup ((p, k) :: f) q) with (lookup (fs_set f p k) q).
    rewrite !lookup_set, IH. destruct (path_eqb p q) eqn:He; [|reflexivity].
    apply path_eqb_eq in He as <-. now rewrite Hp.
  - change (lookup ((p, k) :: f) q) with (lookup (fs_set f p k) q).
    rewrite lookup_set, IH. destruct (path_eqb p q) eqn:He; [|reflexivity].
    apply path_eqb_eq in He as <-. now rewrite Hp.
Qed.

Lemma path_prefixb_app p r : path_prefixb p (p ++ r) = true.
Proof. induction p as [|x p IH]; simpl; [reflexivity|]. now rewrite String.eqb_refl, IH. Qed.

Lemma path_prefixb_inv p q : path_prefixb p q = true -> exists r, q = p ++ r.
Proof.
  revert q; induction p as [|x p IH]; intros q H; [now exists q|].
  destruct q as [|y q]; [discriminate|]. simpl in H. apply andb_prop in H as [H1 H2].
  apply String.eqb_eq in H1 as ->. destruct (IH q H2) as [r ->]. now exists r.
Qed.

Lemma path_prefixb_removelast p q :
  path_prefixb p (removelast q) = true -> path_prefixb p q = true.
Proof.
  intros H. apply path_prefixb_inv in H as [r Hr].
  destruct q as [|x q'] using rev_ind.
  - simpl in Hr. destruct p; [reflexivity | discriminate].
  - rewrite removelast_last in Hr. rewrite Hr, <- app_assoc. apply path_prefixb_app.
Qed.

(** in a well-formed file system nothing lies below a path that does
    not exist *)
Lemma wf_below_exists f p r k :
  fs_wf f = true -> lookup f (p ++ r) = Some k -> exists_p f p = true.
Proof.
  intros Hwf Hl. destruct r as [|x r'] using rev_ind.
  - rewrite app_nil_r in Hl. unfold exists_p. destruct p; [reflexivity|]. now rewrite Hl.
  - apply wf_parent_dir in Hl; [|exact Hwf]. rewrite app_assoc, removelast_last in Hl.
    apply isdir_exists. exact (wf_isdir_prefix f p r' Hwf Hl).
Qed.

Lemma wf_rmtree f p :
  fs_wf f = true -> fs_wf (filter (fun e => negb (path_prefixb p (fst e))) f) = true.
Proof.
  unfold fs_wf. rewrite !forallb_forall. intros Hwf [q k] Hin.
  apply filter_In in Hin as [Hin Hq]. simpl in Hq |- *.
  specialize (Hwf _ Hin). simpl in Hwf.
  unfold isdir in Hwf |- *. destruct (removelast q) as [|y r] eqn:Hr; [reflexivity|].
  rewrite (lookup_filter (fun q => negb (path_prefixb p q))).
  destruct (path_prefixb p (y :: r)) eqn:Hp; [|exact Hwf].
  rewrite <- Hr in Hp. apply path_prefixb_removelast in Hp. rewrite Hp in Hq. discriminate.
Qed.

Lemma clean_dir_ok p msg f tr st :
  fs_wf f = true -> clean_dir p msg {| fs := f; trace := tr |} = (Some tt, st) ->
  fs_wf (fs st) = true /\
  (forall q, lookup (fs st) q = if path_prefixb p q then None else lookup f q) /\
  trace st = tr ++ (if exists_p f p then [Echo msg] else []).
Proof.
  intros Hwf. unfold clean_dir, bind, get_fs, set_fs, emit, ret, raise. cbn [fs trace].
  destruct (exists_p f p) eqn:He.
  - unfold rmtree. destruct (isdir f p); [|discriminate]. intros [= <-]. cbn [fs trace].
    split; [now apply wf_rmtree|]. split; [|reflexivity].
    intros q. rewrite (lookup_filter (fun q => negb (path_prefixb p q))).
    now destruct (path_prefixb p q).
  - intros [= <-]. cbn [fs trace]. split; [exact Hwf|]. split; [|now rewrite app_nil_r].
    intros q. destruct (path_prefixb p q) eqn:Hp; [|reflexivity].
    apply path_prefixb_inv in Hp as [r ->].
    destruct (lookup f (p ++ r)) as [k|] eqn:Hl; [|reflexivity].
    rewrite (wf_below_exists f p r k Hwf Hl) in He. discriminate.
Qed.

(** a completed [clean] leaves nothing at or below [source_repo] and
    [site_contents], leaves every other path as it was and the file
    system well formed, and reports exactly the folders that existed *)
Theorem clean_ok_spec f st :
  fs_wf f = true -> clean {| fs := f; trace := [] |} = (Some tt, st) ->
  fs_wf (fs st) = true /\
  (forall q, lookup (fs st) q =
             if path_prefixb ["source_repo"] q || path_prefixb ["site_contents"] q then None
             else lookup f q) /\
  trace st = (if exists_p f ["source_repo"] then [Echo "Removed source_repo directory."] else []) ++
             (if exists_p f ["site_contents"] then [Echo "Removed site_contents directory."] else []).
Proof.
  intros Hwf. unfold clean, bind.
  destruct (clean_dir ["source_repo"] _ _) as [[[]|] st1] eqn:H1; [|discriminate].
  destruct st1 as [f1 tr1].
  destruct (clean_dir_ok _ _ _ _ _ Hwf H1) as (Hwf1 & Hl1 & Ht1). cbn [fs trace] in *.
  intros H2. destruct (clean_dir_ok _ _ _ _ _ Hwf1 H2) as (Hwf2 & Hl2 & Ht2).
  split; [exact Hwf2|]. split.
  - intros q. rewrite Hl2, Hl1. now destruct (path_prefixb ["source_repo"] q), (path_prefixb ["site_contents"] q).
  - rewrite Ht2, Ht1. simpl. f_equal. unfold exists_p. now rewrite Hl1.
Qed.

Lemma clean_ok_spec_witness :
  let f := [(["site_contents"; "index.md"], FileK); (["site_contents"], DirK); (["notes"], DirK)] in
  fs_wf f = true /\
  clean {| fs := f; trace := [] |} =
    (Some tt, snd (clean {| fs := f; trace := [] |})) /\
  (fs_wf (fs (snd (clean {| fs := f; trace := [] |}))) = true /\
   (forall q, lookup (fs (snd (clean {| fs := f; trace := [] |}))) q =
              if path_prefixb ["source_repo"] q || path_prefixb ["site_contents"] q then None
              else lookup f q) /\
   trace (snd (clean {| fs := f; trace := [] |})) =
     (if exists_p f ["source_repo"] then [Echo "Removed source_repo directory."] else []) ++
     (if exists_p f ["site_contents"] then [Echo "Removed site_contents directory."] else [])).
Proof.
  intros f.
  assert (Hwf : fs_wf f = true) by reflexivity.
  assert (Hc : clean {| fs := f; trace := [] |} = (Some tt, snd (clean {| fs := f; trace := [] |})))
    by reflexivity.
  split; [exact Hwf|]. split; [exact Hc|]. exact (clean_ok_spec f _ Hwf Hc).
Defined.

(** [clean] run again after a completed [clean] finds nothing to
    remove: it completes, changes nothing and prints nothing *)
Theorem clean_twice f st tr :
  fs_wf f = true -> clean {| fs := f; trace := [] |} = (Some tt, st) ->
  clean {| fs := fs st; trace := tr |} = (Some tt, {| fs := fs st; trace := tr |}).
Proof.
  intros Hwf H. destruct (clean_ok_spec f st Hwf H) as (_ & Hl & _).
  assert (Hsr : exists_p (fs st) ["source_repo"] = false) by (unfold exists_p; now rewrite Hl).
  assert (Hsc : exists_p (fs st) ["site_contents"] = false) by (unfold exists_p; now rewrite Hl).
  unfold clean, clean_dir, bind, get_fs, ret. cbn [fs trace]. rewrite Hsr.
  cbn [fs trace]. now rewrite Hsc.
Qed.

Lemma clean_twice_witness :
  let f := [(["source_repo"; "a.md"], FileK); (["source_repo"], DirK)] in
  fs_wf f = true /\
  clean {| fs := f; trace := [] |} = (Some tt, snd (clean {| fs := f; trace := [] |})) /\
  clean {| fs := fs (snd (clean {| fs := f; trace := [] |})); trace := [Echo "x"] |} =
    (Some tt, {| fs := fs (snd (clean {| fs := f; trace := [] |})); trace := [Echo "x"] |}).
Proof.
  intros f.
  assert (Hwf : fs_wf f = true) by reflexivity.
  assert (Hc : clean {| fs := f; trace := [] |} = (Some tt, snd (clean {| fs := f; trace := [] |})))
    by reflexivity.
  split; [exact Hwf|]. split; [exact Hc|]. exact (clean_twice f _ [Echo "x"] Hwf Hc).
Defined.

(** [clean] raises ([shutil.rmtree] of a regular file) when
    [source_repo] or [site_contents] is a regular file; when it is
    [source_repo], before removing or printing anything *)
Theorem clean_file_raises f tr :
  fs_wf f = true ->
  (lookup f ["source_repo"] = Some FileK ->
     clean {| fs := f; trace := tr |} = (None, {| fs := f; trace := tr |})) /\
  (lookup f ["site_contents"] = Some FileK -> fst (clean {| fs := f; trace := tr |}) = None).
Proof.
  intros Hwf. split.
  - intros Hl. unfold clean, clean_dir, bind, get_fs, rmtree, raise. cbn [fs].
    unfold exists_p, isdir. now rewrite Hl.
  - intros Hl. unfold clean at 1, bind.
    destruct (clean_dir ["source_repo"] _ _) as [[[]|] [f1 tr1]] eqn:H1; [|reflexivity].
    assert (Hwf' : fs_wf f = true) by exact Hwf.
    destruct (clean_dir_ok _ _ _ _ _ Hwf' H1) as (_ & Hl1 & _). cbn [fs] in Hl1.
    assert (Hl' : lookup f1 ["site_contents"] = Some FileK) by now rewrite Hl1.
    unfold clean_dir, bind, get_fs, rmtree, raise. cbn [fs].
    unfold exists_p, isdir. now rewrite Hl'.
Qed.

Lemma clean_file_raises_witness :
  fs_wf [(["source_repo"], FileK)] = true /\
  (lookup [(["source_repo"], FileK)] ["source_repo"] = Some FileK ->
     clean {| fs := [(["source_repo"], FileK)]; trace := [] |} =
       (None, {| fs := [(["source_repo"], FileK)]; trace := [] |})) /\
  (lookup [(["source_repo"], FileK)] ["site_contents"] = Some FileK ->
     fst (clean {| fs := [(["source_repo"], FileK)]; trace := [] |}) = None).
Proof.
  assert (Hwf : fs_wf [(["source_repo"], FileK)] = true) by reflexivity.
  split; [exact Hwf|]. exact (clean_file_raises _ [] Hwf).
Defined.
